(** * Secret retrieval gateway of the universal API (pkg/api/universal/secrets.go)

    A shallow embedding of [GetSecret], [GetBulkSecret],
    [secretsValidateRequest] and [isSecretAllowed], with the component
    store as finite maps, Go's nil-able maps and pointers as options, and
    the logger, the telemetry sink and the secret-store backends as an
    explicit state that every call threads. *)

From stdpp Require Import gmap strings list fin_maps.

Set Default Proof Using "Type".

(** ** Go values *)

(** A Go map is nil or holds a finite map: [None] is the nil map.  Ranging
    over a nil map runs no iteration and its length is 0. *)
Definition GoMap (V : Type) : Type := option (gmap string V).

Definition goLen {V} (m : GoMap V) : nat :=
  match m with
  | None => 0
  | Some g => size g
  end.

(** The value of one secret: sub-key to value (map[string]string). *)
Definition SecretData : Type := GoMap string.

(** ** Scope configuration (config.SecretsScope) *)

Inductive Access := AllowAccess | DenyAccess.

#[global] Instance Access_eq_dec : EqDecision Access.
Proof. solve_decision. Defined.

Record SecretsScope := {
  DefaultAccess : Access;
  StoreName : string;
  AllowedSecrets : list string;
  DeniedSecrets : list string
}.

(** The reasons an access decision carries.  [NoConfiguration] is never
    returned by a scope: it names the case where no scope exists. *)
Inductive Reason :=
| DeniedListMatch
| NotInAllowedList
| AllowedListMatch
| DefaultDeny
| DefaultAllow
| NoConfiguration.

#[global] Instance Reason_eq_dec : EqDecision Reason.
Proof. solve_decision. Defined.

(** The text of each reason, as the tests of the package expect it in the
    log lines. *)
Definition reasonText (r : Reason) : string :=
  match r with
  | DeniedListMatch => "Key is in DeniedSecrets list"
  | NotInAllowedList => "Key is not in AllowedSecrets list and AllowedSecrets is configured"
  | AllowedListMatch => "Key is in AllowedSecrets list"
  | DefaultDeny => "DefaultAccess is set to 'deny' and key is not in AllowedSecrets"
  | DefaultAllow => "DefaultAccess is set to 'allow' and key is not in DeniedSecrets"
  | NoConfiguration => "No scoping configuration found"
  end.

(** containsKey: linear search of a string slice. *)
Fixpoint containsKey (s : list string) (key : string) : bool :=
  match s with
  | [] => false
  | x :: rest => if decide (x = key) then true else containsKey rest key
  end.

(** Modelled from the spec: [IsSecretAllowedWithReason] is a method of
    config.SecretsScope (package pkg/config), which is not among the
    sources; only its callers and the test table of its results are.  The
    definition follows the decision precedence of the specification, rules
    2 to 4 (rule 1, the absent scope, is decided by the caller
    [isSecretAllowed]). *)
Definition IsSecretAllowedWithReason (c : SecretsScope) (key : string) : bool * Reason :=
  if containsKey (DeniedSecrets c) key then (false, DeniedListMatch)
  else if negb (length (AllowedSecrets c) =? 0) then
    if containsKey (AllowedSecrets c) key then (true, AllowedListMatch)
    else (false, NotInAllowedList)
  else
    match DefaultAccess c with
    | DenyAccess => (false, DefaultDeny)
    | AllowAccess => (true, DefaultAllow)
    end.

(** ** Errors (package messages) *)

Inductive APIError :=
| ErrSecretStoreNotConfigured
| ErrSecretStoreNotFound (storeName : string)
| ErrSecretPermissionDenied (key storeName : string)
| ErrSecretGet (key storeName msg : string)
| ErrBulkSecretGet (storeName msg : string).

#[global] Instance APIError_eq_dec : EqDecision APIError.
Proof. solve_decision. Defined.

(** ** What the gateway writes: log lines and telemetry *)

Inductive Operation := Get | BulkGet.

Inductive Event :=
(** a.logger.Debug(err) *)
| DebugError (e : APIError)
(** "Secret access denied. Key, Store, Reason, DefaultAccess,
    AllowedSecrets, DeniedSecrets" at info level *)
| InfoAccessDenied (key storeName : string) (reason : Reason)
    (defaultAccess : Access) (allowed denied : list string)
(** "Secret access denied. Key, Store, No scoping configuration found" *)
| InfoAccessDeniedNoConfig (key storeName : string)
(** "No secret scoping configuration found for store, defaulting to allow
    access for key" at debug level *)
| DebugNoConfig (storeName key : string)
(** "Some secrets were denied access. Store, DefaultAccess, Denied keys
    with reasons" *)
| InfoBulkDenied (storeName : string) (defaultAccess : Access)
    (deniedSecretReasons : list string)
(** "Some secrets were denied access. Store, No scoping configuration
    found. Denied keys" *)
| InfoBulkDeniedNoConfig (storeName : string) (deniedSecrets : list string)
(** diag.DefaultComponentMonitoring.SecretInvoked(store, operation, ok) *)
| SecretInvoked (storeName : string) (op : Operation) (success : bool).

(** fmt.Sprintf("%s: %s", key, reason) *)
Definition keyReason (key : string) (reason : Reason) : string :=
  (key +:+ ": " +:+ reasonText reason)%string.

(** ** Requests and responses *)

(** secretstores.GetSecretRequest and secretstores.BulkGetSecretRequest *)
Record StoreGetSecretRequest := {
  Name : string;
  GetMetadata : GoMap string
}.

Record StoreBulkGetSecretRequest := {
  BulkMetadata : GoMap string
}.

(** secretstores.GetSecretResponse and secretstores.BulkGetSecretResponse *)
Record StoreGetSecretResponse := {
  StoreData : SecretData
}.

Record StoreBulkGetSecretResponse := {
  StoreBulkData : GoMap SecretData
}.

(** runtimev1pb.GetSecretRequest and runtimev1pb.GetBulkSecretRequest *)
Record GetSecretRequest := {
  reqStoreName : string;
  reqKey : string;
  reqMetadata : GoMap string
}.

Record GetBulkSecretRequest := {
  bulkStoreName : string;
  bulkMetadata : GoMap string
}.

(** runtimev1pb.GetSecretResponse, runtimev1pb.SecretResponse and
    runtimev1pb.GetBulkSecretResponse.  The responses are returned by
    pointer: [None] is the nil response. *)
Record GetSecretResponse := {
  Data : SecretData
}.

Record SecretResponse := {
  Secrets : SecretData
}.

Record GetBulkSecretResponse := {
  BulkData : GoMap SecretResponse
}.

(** The order in which a [range] statement visits a map.  Go leaves it
    unspecified; a valid order lists every entry of the map once. *)
Definition RangeOrder : Type := ∀ V : Type, gmap string V → list (string * V).

Definition ValidOrder (ord : RangeOrder) : Prop :=
  ∀ (V : Type) (m : gmap string V), ord V m ≡ₚ map_to_list m.

Definition rangeOf {V} (ord : RangeOrder) (m : GoMap V) : list (string * V) :=
  match m with
  | None => []
  | Some g => ord V g
  end.

Section Gateway.
(** The state of the secret-store backends, which only they read and
    write. *)
Context {W : Type}.

(** secretstores.SecretStore: a call returns its response and error,
    and may change the backend's state. *)
Record SecretStore := {
  storeGetSecret : StoreGetSecretRequest → W → (StoreGetSecretResponse * option string) * W;
  storeBulkGetSecret : StoreBulkGetSecretRequest → W → (StoreBulkGetSecretResponse * option string) * W
}.

(** An operation handed to the resiliency runner, and the runner
    itself: it may call the operation any number of times (retries),
    or not at all (timeout, open circuit breaker), and returns a
    pointer to a result, possibly nil, and an error. *)
Definition RunnerOp (T : Type) : Type := W → (T * option string) * W.

Definition Runner : Type :=
  ∀ T : Type, RunnerOp T → W → (option T * option string) * W.

(** compstore.ComponentStore, as far as secrets go. *)
Record ComponentStore := {
  secretStores : gmap string SecretStore;
  secretsConfigurations : gmap string SecretsScope
}.

Definition SecretStoresLen (c : ComponentStore) : nat := size (secretStores c).

Definition GetSecretStore (c : ComponentStore) (name : string) : option SecretStore :=
  secretStores c !! name.

Definition GetSecretsConfiguration (c : ComponentStore) (name : string) : option SecretsScope :=
  secretsConfigurations c !! name.

(** The receiver: ComponentOutboundPolicy(storeName, Secretstore) picks
    the runner of a store. *)
Record Universal := {
  compStore : ComponentStore;
  resiliency : string → Runner
}.

(** ** The monad of a call: backend state and the lines written *)

Record State := {
  world : W;
  events : list Event
}.

Definition M (A : Type) : Type := State → A * State.

Definition ret {A} (x : A) : M A := λ s, (x, s).

Definition bind {A B} (m : M A) (k : A → M B) : M B :=
  λ s, let '(x, s') := m s in k x s'.

Definition emit (e : Event) : M unit :=
  λ s, (tt, {| world := world s; events := events s ++ [e] |}).

(** Running a computation of the backends, which sees only their state. *)
Definition onWorld {A} (f : W → A * W) : M A :=
  λ s, let '(x, w) := f (world s) in (x, {| world := w; events := events s |}).

Notation "'let*' x ':=' m 'in' k" := (bind m (λ x, k))
  (at level 10, x name, m at level 100, k at level 200).
Notation "'run' m 'in' k" := (bind m (λ _, k))
  (at level 10, m at level 100, k at level 200).

Fixpoint foldM {A B} (f : A → B → M A) (l : list B) (acc : A) : M A :=
  match l with
  | [] => ret acc
  | x :: rest => let* acc' := f acc x in foldM f rest acc'
  end.

(** ** The gateway *)

Definition isSecretAllowed (a : Universal) (storeName key : string) : M bool :=
  match GetSecretsConfiguration (compStore a) storeName with
  | Some config =>
      let '(allowed, reason) := IsSecretAllowedWithReason config key in
      run (if negb allowed
           then emit (InfoAccessDenied key storeName reason (DefaultAccess config)
                        (AllowedSecrets config) (DeniedSecrets config))
           else ret tt) in
      ret allowed
  | None =>
      (* By default, if a configuration is not defined for a secret
         store, return true. *)
      run emit (DebugNoConfig storeName key) in
      ret true
  end.

(** Internal method that checks if the request is for a valid secret
    store component. *)
Definition secretsValidateRequest (a : Universal) (componentName : string)
  : M (SecretStore + APIError) :=
  if SecretStoresLen (compStore a) =? 0 then
    let err := ErrSecretStoreNotConfigured in
    run emit (DebugError err) in
    ret (inr err)
  else
    match GetSecretStore (compStore a) componentName with
    | None =>
        let err := ErrSecretStoreNotFound componentName in
        run emit (DebugError err) in
        ret (inr err)
    | Some component => ret (inl component)
    end.

Definition GetSecret (a : Universal) (req : GetSecretRequest)
  : M (option GetSecretResponse * option APIError) :=
  let response : option GetSecretResponse := None in
  let* v := secretsValidateRequest a (reqStoreName req) in
  match v with
  | inr err => ret (response, Some err)
  | inl component =>
      let* allowed := isSecretAllowed a (reqStoreName req) (reqKey req) in
      if negb allowed then
        let err := ErrSecretPermissionDenied (reqKey req) (reqStoreName req) in
        run match GetSecretsConfiguration (compStore a) (reqStoreName req) with
            | Some config =>
                let '(_, reason) := IsSecretAllowedWithReason config (reqKey req) in
                emit (InfoAccessDenied (reqKey req) (reqStoreName req) reason
                        (DefaultAccess config) (AllowedSecrets config)
                        (DeniedSecrets config))
            | None => emit (InfoAccessDeniedNoConfig (reqKey req) (reqStoreName req))
            end in
        ret (response, Some err)
      else
        let sreq := {| Name := reqKey req; GetMetadata := reqMetadata req |} in
        let* r := onWorld (resiliency a (reqStoreName req) StoreGetSecretResponse
                             (storeGetSecret component sreq)) in
        let '(getResponse, err) := r in
        run emit (SecretInvoked (reqStoreName req) Get (bool_decide (err = None))) in
        match err with
        | Some msg =>
            let err := ErrSecretGet (Name sreq) (reqStoreName req) msg in
            run emit (DebugError err) in
            ret (response, Some err)
        | None =>
            match getResponse with
            | Some g => ret (Some {| Data := StoreData g |}, None)
            | None => ret (response, None)
            end
        end
  end.

(** The accumulators of the filtering loop of [GetBulkSecret]. *)
Record Partition := {
  filteredSecrets : gmap string SecretData;
  deniedSecrets : list string;
  deniedSecretReasons : list string
}.

Definition emptyPartition : Partition :=
  {| filteredSecrets := ∅; deniedSecrets := []; deniedSecretReasons := [] |}.

(** One iteration of `for key, v := range getResponse.Data`. *)
Definition filterStep (a : Universal) (storeName : string)
    (p : Partition) (kv : string * SecretData) : M Partition :=
  let '(key, v) := kv in
  let* allowed := isSecretAllowed a storeName key in
  if allowed then
    ret {| filteredSecrets := <[key := v]> (filteredSecrets p);
           deniedSecrets := deniedSecrets p;
           deniedSecretReasons := deniedSecretReasons p |}
  else
    let reasons :=
      match GetSecretsConfiguration (compStore a) storeName with
      | Some config =>
          let '(_, reason) := IsSecretAllowedWithReason config key in
          deniedSecretReasons p ++ [keyReason key reason]
      | None => deniedSecretReasons p
      end in
    run emit (DebugError (ErrSecretPermissionDenied key storeName)) in
    ret {| filteredSecrets := filteredSecrets p;
           deniedSecrets := deniedSecrets p ++ [key];
           deniedSecretReasons := reasons |}.

Definition filterSecrets (a : Universal) (storeName : string)
    (kvs : list (string * SecretData)) : M Partition :=
  foldM (filterStep a storeName) kvs emptyPartition.

(** `for key, v := range filteredSecrets`, filling response.Data. *)
Definition fillResponse (kvs : list (string * SecretData)) : gmap string SecretResponse :=
  foldl (λ data kv, <[kv.1 := {| Secrets := kv.2 |}]> data) ∅ kvs.

Definition GetBulkSecret (a : Universal) (ord : RangeOrder) (req : GetBulkSecretRequest)
  : M (option GetBulkSecretResponse * option APIError) :=
  let response : option GetBulkSecretResponse := None in
  let* v := secretsValidateRequest a (bulkStoreName req) in
  match v with
  | inr err => ret (response, Some err)
  | inl component =>
      let sreq := {| BulkMetadata := bulkMetadata req |} in
      let* r := onWorld (resiliency a (bulkStoreName req) StoreBulkGetSecretResponse
                           (storeBulkGetSecret component sreq)) in
      let '(getResponse, err) := r in
      run emit (SecretInvoked (bulkStoreName req) BulkGet (bool_decide (err = None))) in
      match err with
      | Some msg =>
          let err := ErrBulkSecretGet (bulkStoreName req) msg in
          run emit (DebugError err) in
          ret (response, Some err)
      | None =>
          match getResponse with
          | None => ret (response, None)
          | Some g =>
              let* p := filterSecrets a (bulkStoreName req)
                          (rangeOf ord (StoreBulkData g)) in
              run (if 0 <? length (deniedSecrets p) then
                     match GetSecretsConfiguration (compStore a) (bulkStoreName req) with
                     | Some config =>
                         emit (InfoBulkDenied (bulkStoreName req) (DefaultAccess config)
                                 (deniedSecretReasons p))
                     | None =>
                         emit (InfoBulkDeniedNoConfig (bulkStoreName req) (deniedSecrets p))
                     end
                   else ret tt) in
              match StoreBulkData g with
              | Some _ =>
                  ret (Some {| BulkData :=
                                 Some (fillResponse (ord _ (filteredSecrets p))) |},
                       None)
              | None => ret (response, None)
              end
          end
      end
  end.

(** The runner of an empty policy (resiliency.New(nil)): the operation
    runs once and its result is returned as it is. *)
Definition noPolicy : Runner :=
  λ T op w, let '((r, e), w') := op w in ((Some r, e), w').

End Gateway.

Arguments SecretStore : clear implicits.
Arguments ComponentStore : clear implicits.
Arguments Universal : clear implicits.
Arguments State : clear implicits.
Arguments Runner : clear implicits.

(** ** Derived notions used in the statements *)

(** The decision [isSecretAllowed] takes, with its reason: the scope of
    the store decides when there is one, and a store without scope is
    open. *)
Definition evaluate (scope : option SecretsScope) (key : string) : bool * Reason :=
  match scope with
  | Some config => IsSecretAllowedWithReason config key
  | None => (true, NoConfiguration)
  end.

(** The decision for a key of a store of the receiver. *)
Definition allowedIn {W} (a : Universal W) (storeName key : string) : bool :=
  (evaluate (GetSecretsConfiguration (compStore a) storeName) key).1.

(** The entries of a bulk result that the response keeps. *)
Definition allowedPart {W} (a : Universal W) (storeName : string)
    (m : gmap string SecretData) : gmap string SecretData :=
  filter (λ kv, allowedIn a storeName kv.1 = true) m.

(** The error of a store name that does not resolve. *)
Definition resolveError {W} (a : Universal W) (componentName : string) : APIError :=
  if SecretStoresLen (compStore a) =? 0 then ErrSecretStoreNotConfigured
  else ErrSecretStoreNotFound componentName.

(** The error of a bulk call: store resolution first, then the runner. *)
Definition bulkError {W} (a : Universal W) (req : GetBulkSecretRequest) (w : W)
  : option APIError :=
  if SecretStoresLen (compStore a) =? 0 then Some ErrSecretStoreNotConfigured
  else
    match GetSecretStore (compStore a) (bulkStoreName req) with
    | None => Some (ErrSecretStoreNotFound (bulkStoreName req))
    | Some component =>
        match (resiliency a (bulkStoreName req) StoreBulkGetSecretResponse
                 (storeBulkGetSecret component {| BulkMetadata := bulkMetadata req |})
                 w).1.2 with
        | Some msg => Some (ErrBulkSecretGet (bulkStoreName req) msg)
        | None => None
        end
    end.

Definition isBulkDeniedNoConfig (e : Event) : bool :=
  match e with
  | InfoBulkDeniedNoConfig _ _ => true
  | _ => false
  end.

(** Go's order of the day: here the order of the map's own listing, and
    its reverse. *)
Definition listingOrder : RangeOrder := λ V m, map_to_list m.
Definition reverseOrder : RangeOrder := λ V m, reverse (map_to_list m).

(** ** Fixtures of the package's tests *)

(** The backends of the tests, with the number of calls they served as
    their state.  A single fetch answers "good-key", fails on
    "error-key" and returns no data otherwise; a bulk fetch returns
    [bulkSecrets]. *)
Definition CustomSecretStore (bulkSecrets : GoMap SecretData) : SecretStore nat :=
  {| storeGetSecret := λ req calls,
       if decide (Name req = "good-key") then
         ({| StoreData := Some {[ "good-key" := "life is good" ]} |}, None, S calls)
       else if decide (Name req = "error-key") then
         ({| StoreData := None |}, Some "error occurs with error-key", S calls)
       else ({| StoreData := None |}, None, S calls);
     storeBulkGetSecret := λ _ calls,
       ({| StoreBulkData := bulkSecrets |}, None, S calls) |}.

Definition testBulkSecrets : GoMap SecretData :=
  Some {[ "allowed-key" := Some ({[ "allowed-key" := "allowed value" ]} : gmap string string);
          "denied-key" := Some ({[ "denied-key" := "denied value" ]} : gmap string string) ]}.

Definition scopeOf (storeName : string) (access : Access) (allowed denied : list string)
  : SecretsScope :=
  {| DefaultAccess := access; StoreName := storeName;
     AllowedSecrets := allowed; DeniedSecrets := denied |}.

(** The stores and scopes of TestGetSecret ("store1" to "store4", the
    last without scope) and of TestGetBulkSecretEnhancedLogging
    ("test-store"), and a store whose bulk result is an empty, non-nil
    map ("empty-store"). *)
Definition testCompStore : ComponentStore nat :=
  {| secretStores :=
       {[ "store1" := CustomSecretStore None;
          "store2" := CustomSecretStore testBulkSecrets;
          "store3" := CustomSecretStore None;
          "store4" := CustomSecretStore testBulkSecrets;
          "test-store" := CustomSecretStore testBulkSecrets;
          "empty-store" := CustomSecretStore (Some ∅) ]};
     secretsConfigurations :=
       {[ "store1" := scopeOf "store1" AllowAccess [] ["not-allowed"];
          "store2" := scopeOf "store2" DenyAccess ["good-key"] [];
          "store3" := scopeOf "store3" AllowAccess ["error-key"; "good-key"] [];
          "test-store" := scopeOf "test-store" AllowAccess [] ["denied-key"] ]} |}.

Definition testAPI : Universal nat :=
  {| compStore := testCompStore; resiliency := λ _, noPolicy |}.

(** A receiver with no secret store at all (compstore.New()). *)
Definition emptyAPI : Universal nat :=
  {| compStore := {| secretStores := ∅; secretsConfigurations := ∅ |};
     resiliency := λ _, noPolicy |}.

(** The receiver of the tests behind a runner that gives up before it
    calls the backend, and the receiver of the tests with another scope
    for "store2". *)
Definition timedOutAPI : Universal nat :=
  {| compStore := testCompStore;
     resiliency := λ _ T _ calls, (None, Some "context deadline exceeded", calls) |}.

Definition rescopedAPI : Universal nat :=
  {| compStore :=
       {| secretStores := secretStores testCompStore;
          secretsConfigurations :=
            <[ "store2" := scopeOf "store2" AllowAccess [] [] ]>
              (secretsConfigurations testCompStore) |};
     resiliency := λ _, noPolicy |}.

Definition freshState : State nat := {| world := 0; events := [] |}.

Definition getReq (storeName key : string) : GetSecretRequest :=
  {| reqStoreName := storeName; reqKey := key; reqMetadata := None |}.

Definition bulkReq (storeName : string) : GetBulkSecretRequest :=
  {| bulkStoreName := storeName; bulkMetadata := None |}.

(** ** The lines of the log, as functions of the scope *)

(** What [isSecretAllowed] writes for a key: the denial line when a scope
    denies the key, nothing when a scope allows it, the no-configuration
    line when the store has no scope. *)
Definition accessLines (scope : option SecretsScope) (storeName key : string)
  : list Event :=
  match scope with
  | Some config =>
      let '(allowed, reason) := IsSecretAllowedWithReason config key in
      if allowed then []
      else [InfoAccessDenied key storeName reason (DefaultAccess config)
              (AllowedSecrets config) (DeniedSecrets config)]
  | None => [DebugNoConfig storeName key]
  end.

(** What one iteration of the filtering loop writes for a key. *)
Definition filterLines (scope : option SecretsScope) (storeName key : string)
  : list Event :=
  accessLines scope storeName key
  ++ (if (evaluate scope key).1 then []
      else [DebugError (ErrSecretPermissionDenied key storeName)]).

(** The keys a scope denies, in the order given. *)
Definition deniedKeys (scope : option SecretsScope) (keys : list string) : list string :=
  filter (λ key, (evaluate scope key).1 = false) keys.

(** The aggregate line of the bulk path for a list of denied keys. *)
Definition aggregateLines (scope : option SecretsScope) (storeName : string)
    (denied : list string) : list Event :=
  match denied with
  | [] => []
  | _ :: _ =>
      match scope with
      | Some config =>
          [InfoBulkDenied storeName (DefaultAccess config)
             ((λ key, keyReason key (IsSecretAllowedWithReason config key).2) <$> denied)]
      | None => [InfoBulkDeniedNoConfig storeName denied]
      end
  end.

Definition isSecretInvoked (e : Event) : bool :=
  match e with
  | SecretInvoked _ _ _ => true
  | _ => false
  end.

(** ** Basic facts *)

Lemma containsKey_elem_of (l : list string) (key : string) :
  containsKey l key = true ↔ key ∈ l.
Proof.
  induction l as [|x l IH]; simpl.
  - split; [discriminate | intros H; inversion H].
  - destruct (decide (x = key)) as [->|Hne].
    + split; [intros _; left | done].
    + rewrite IH. split; [by right |].
      intros Hin. apply elem_of_cons in Hin as [->|]; [congruence | done].
Qed.

Lemma containsKey_not_elem_of (l : list string) (key : string) :
  containsKey l key = false ↔ key ∉ l.
Proof.
  rewrite <- containsKey_elem_of. destruct (containsKey l key); naive_solver.
Qed.

Lemma length_eqb_nil {A} (l : list A) : (length l =? 0) = true ↔ l = [].
Proof. destruct l; simpl; naive_solver. Qed.

(** Unfolding the operations of the monad. *)
Ltac unfold_monad := unfold bind, onWorld, emit, ret.

Section Facts.
Context {W : Type}.
Implicit Types (a : Universal W) (s : State W) (p : @Partition).

Lemma state_eta s : {| world := world s; events := events s |} = s.
Proof. by destruct s. Qed.

(** [isSecretAllowed] returns the decision of [evaluate], leaves the
    backends alone and writes at most one line, which is not the
    aggregate line of the bulk path. *)
Lemma isSecretAllowed_run a storeName key s :
  ∃ new,
    isSecretAllowed a storeName key s =
      (allowedIn a storeName key,
       {| world := world s; events := events s ++ new |})
    ∧ Forall (λ e, isBulkDeniedNoConfig e = false) new.
Proof.
  unfold isSecretAllowed, allowedIn, evaluate.
  destruct (GetSecretsConfiguration (compStore a) storeName) as [config|].
  - destruct (IsSecretAllowedWithReason config key) as [[] reason];
      unfold bind, emit, ret; simpl.
    + exists []. rewrite app_nil_r, state_eta. by split.
    + eexists [_]. split; [reflexivity |]. by repeat constructor.
  - unfold bind, emit, ret; simpl. eexists [_]. split; [reflexivity |].
    by repeat constructor.
Qed.

Lemma isSecretAllowed_result a storeName key s :
  (isSecretAllowed a storeName key s).1 = allowedIn a storeName key.
Proof. destruct (isSecretAllowed_run a storeName key s) as (new & -> & _). done. Qed.

Lemma isSecretAllowed_world a storeName key s :
  world (isSecretAllowed a storeName key s).2 = world s.
Proof. destruct (isSecretAllowed_run a storeName key s) as (new & -> & _). done. Qed.

Lemma foldM_nil {A B} (f : A → B → M A) (acc : A) s :
  foldM (W := W) f [] acc s = (acc, s).
Proof. reflexivity. Qed.

Lemma foldM_cons {A B} (f : A → B → M A) (x : B) (l : list B) (acc : A) s :
  foldM (W := W) f (x :: l) acc s = foldM f l (f acc x s).1 (f acc x s).2.
Proof. simpl. unfold bind. by destruct (f acc x s). Qed.

(** One iteration of the filtering loop, as a function of the decision. *)
Lemma filterStep_run a storeName p key v s :
  ∃ new,
    (filterStep a storeName p (key, v) s).2 =
      {| world := world s; events := events s ++ new |}
    ∧ Forall (λ e, isBulkDeniedNoConfig e = false) new
    ∧ filteredSecrets (filterStep a storeName p (key, v) s).1 =
        (if allowedIn a storeName key
         then <[key := v]> (filteredSecrets p) else filteredSecrets p)
    ∧ deniedSecrets (filterStep a storeName p (key, v) s).1 =
        (if allowedIn a storeName key
         then deniedSecrets p else deniedSecrets p ++ [key]).
Proof.
  unfold filterStep, bind.
  destruct (isSecretAllowed_run a storeName key s) as (new & -> & Hnew).
  destruct (allowedIn a storeName key); unfold emit, ret; simpl.
  - exists new. done.
  - exists (new ++ [DebugError (ErrSecretPermissionDenied key storeName)]).
    rewrite <- app_assoc. split; [done |]. split; [|done].
    apply Forall_app. split; [done |]. by repeat constructor.
Qed.

Lemma foldM_filter_run a storeName kvs : ∀ p s,
  ∃ new,
    (foldM (filterStep a storeName) kvs p s).2 =
      {| world := world s; events := events s ++ new |}
    ∧ Forall (λ e, isBulkDeniedNoConfig e = false) new.
Proof.
  induction kvs as [|[key v] kvs IH]; intros p s.
  - exists []. rewrite foldM_nil. simpl. by rewrite app_nil_r, state_eta.
  - rewrite foldM_cons.
    destruct (filterStep_run a storeName p key v s) as (new1 & -> & Hnew1 & _).
    destruct (IH (filterStep a storeName p (key, v) s).1
                {| world := world s; events := events s ++ new1 |})
      as (new2 & -> & Hnew2). simpl.
    exists (new1 ++ new2). rewrite <- app_assoc. split; [done |].
    by apply Forall_app.
Qed.

(** The denied keys, in the order of the iteration. *)
Lemma foldM_filter_denied a storeName kvs : ∀ p s,
  deniedSecrets (foldM (filterStep a storeName) kvs p s).1 =
    deniedSecrets p ++ filter (λ key, allowedIn a storeName key = false) kvs.*1.
Proof.
  induction kvs as [|[key v] kvs IH]; intros p s.
  - rewrite foldM_nil. simpl. by rewrite app_nil_r.
  - rewrite foldM_cons.
    destruct (filterStep_run a storeName p key v s) as (new1 & _ & _ & _ & Hd).
    rewrite IH, Hd. rewrite fmap_cons, filter_cons. simpl.
    destruct (allowedIn a storeName key); simpl.
    + done.
    + by rewrite <- app_assoc.
Qed.

(** The kept entries, looked up by key. *)
Lemma foldM_filter_lookup a storeName kvs : NoDup kvs.*1 → ∀ p s key,
  filteredSecrets (foldM (filterStep a storeName) kvs p s).1 !! key =
    if allowedIn a storeName key
    then match (list_to_map kvs : gmap string SecretData) !! key with
         | Some v => Some v
         | None => filteredSecrets p !! key
         end
    else filteredSecrets p !! key.
Proof.
  induction kvs as [|[k v] kvs IH]; intros Hnd p s key.
  - rewrite foldM_nil. simpl. rewrite lookup_empty.
    by destruct (allowedIn a storeName key).
  - rewrite fmap_cons in Hnd. apply NoDup_cons in Hnd as [Hk Hnd].
    rewrite foldM_cons.
    destruct (filterStep_run a storeName p k v s) as (new1 & _ & _ & Hf & _).
    rewrite (IH Hnd), Hf. simpl.
    destruct (decide (k = key)) as [->|Hne].
    + rewrite lookup_insert_eq.
      rewrite (not_elem_of_list_to_map_1 _ key Hk).
      destruct (allowedIn a storeName key); [by rewrite lookup_insert_eq | done].
    + rewrite (lookup_insert_ne _ k key) by done.
      assert ((if allowedIn a storeName k
               then <[k:=v]> (filteredSecrets p) else filteredSecrets p) !! key
              = filteredSecrets p !! key) as ->; [|done].
      destruct (allowedIn a storeName k); [by rewrite lookup_insert_ne | done].
Qed.

(** Over the entries of a map, visited in any valid order, the loop keeps
    exactly the allowed part. *)
Lemma filterSecrets_allowedPart a storeName (m : gmap string SecretData) kvs s :
  kvs ≡ₚ map_to_list m →
  filteredSecrets (filterSecrets a storeName kvs s).1 = allowedPart a storeName m.
Proof.
  intros Hkvs. apply map_eq. intros key. unfold filterSecrets, allowedPart.
  assert (NoDup kvs.*1) as Hnd.
  { rewrite Hkvs. apply NoDup_fst_map_to_list. }
  rewrite (foldM_filter_lookup a storeName kvs Hnd).
  rewrite (list_to_map_proper kvs (map_to_list m) Hnd Hkvs), list_to_map_to_list.
  simpl. rewrite lookup_empty, map_lookup_filter.
  destruct (m !! key) as [v|]; simpl.
  - destruct (allowedIn a storeName key) eqn:Hal.
    + by rewrite option_guard_True.
    + rewrite option_guard_False; [done | simpl; congruence].
  - by destruct (allowedIn a storeName key).
Qed.

Lemma filterSecrets_denied a storeName kvs s :
  deniedSecrets (filterSecrets a storeName kvs s).1 =
    filter (λ key, allowedIn a storeName key = false) kvs.*1.
Proof. unfold filterSecrets. by rewrite foldM_filter_denied. Qed.

Lemma fillResponse_lookup kvs : NoDup kvs.*1 → ∀ (acc : gmap string SecretResponse) key,
  foldl (λ data kv, <[kv.1 := {| Secrets := kv.2 |}]> data) acc kvs !! key =
    match (list_to_map kvs : gmap string SecretData) !! key with
    | Some v => Some {| Secrets := v |}
    | None => acc !! key
    end.
Proof.
  induction kvs as [|[k v] kvs IH]; intros Hnd acc key.
  - simpl. by rewrite lookup_empty.
  - rewrite fmap_cons in Hnd. apply NoDup_cons in Hnd as [Hk Hnd].
    simpl. rewrite (IH Hnd).
    destruct (decide (k = key)) as [->|Hne].
    + rewrite (not_elem_of_list_to_map_1 _ key Hk). by rewrite !lookup_insert_eq.
    + by rewrite !(lookup_insert_ne _ k key) by done.
Qed.

(** The second loop copies the kept entries, each wrapped as it is. *)
Lemma fillResponse_fmap (m : gmap string SecretData) kvs :
  kvs ≡ₚ map_to_list m → fillResponse kvs = Build_SecretResponse <$> m.
Proof.
  intros Hkvs. apply map_eq. intros key. unfold fillResponse.
  assert (NoDup kvs.*1) as Hnd.
  { rewrite Hkvs. apply NoDup_fst_map_to_list. }
  rewrite (fillResponse_lookup kvs Hnd).
  rewrite (list_to_map_proper kvs (map_to_list m) Hnd Hkvs), list_to_map_to_list.
  rewrite lookup_fmap, lookup_empty. by destruct (m !! key).
Qed.

(** Store resolution. *)
Lemma lookup_Some_size_ne_0 {V} (m : gmap string V) key v :
  m !! key = Some v → (size m =? 0) = false.
Proof.
  intros Hm. apply Nat.eqb_neq. intros Hsz.
  apply map_size_empty_iff in Hsz. subst m. by rewrite lookup_empty in Hm.
Qed.

Lemma secretsValidateRequest_found a componentName component s :
  GetSecretStore (compStore a) componentName = Some component →
  secretsValidateRequest a componentName s = (inl component, s).
Proof.
  intros Hc. unfold secretsValidateRequest, SecretStoresLen.
  unfold GetSecretStore in *.
  by rewrite (lookup_Some_size_ne_0 _ _ _ Hc), Hc.
Qed.

Lemma secretsValidateRequest_unresolved a componentName s :
  SecretStoresLen (compStore a) = 0 ∨ GetSecretStore (compStore a) componentName = None →
  secretsValidateRequest a componentName s =
    (inr (resolveError a componentName),
     {| world := world s;
        events := events s ++ [DebugError (resolveError a componentName)] |}).
Proof.
  intros Hc. unfold secretsValidateRequest, resolveError.
  destruct (SecretStoresLen (compStore a) =? 0) eqn:Hsz; [done |].
  destruct Hc as [Hz | ->]; [|done].
  apply Nat.eqb_neq in Hsz. done.
Qed.

(** Without a scope every key is allowed, so no key is denied. *)
Lemma allowedIn_no_scope a storeName key :
  GetSecretsConfiguration (compStore a) storeName = None →
  allowedIn a storeName key = true.
Proof. unfold allowedIn. by intros ->. Qed.

Lemma filterSecrets_denied_no_scope a storeName kvs s :
  GetSecretsConfiguration (compStore a) storeName = None →
  deniedSecrets (filterSecrets a storeName kvs s).1 = [].
Proof.
  intros Hnone. rewrite filterSecrets_denied.
  induction (kvs.*1) as [|key keys IH]; [done |].
  rewrite filter_cons, (allowedIn_no_scope _ _ _ Hnone). simpl. exact IH.
Qed.

(** The bulk path after a successful backend call: the state it leaves,
    and, for a valid order of iteration, the response. *)
Lemma GetBulkSecret_success_run a ord req s component g w' :
  GetSecretStore (compStore a) (bulkStoreName req) = Some component →
  resiliency a (bulkStoreName req) StoreBulkGetSecretResponse
    (storeBulkGetSecret component {| BulkMetadata := bulkMetadata req |}) (world s)
    = (Some g, None, w') →
  ∃ resp new,
    GetBulkSecret a ord req s =
      (resp, None, {| world := w'; events := events s ++ new |})
    ∧ Forall (λ e, isBulkDeniedNoConfig e = false) new
    ∧ (ValidOrder ord →
       resp = match StoreBulkData g with
              | Some m =>
                  Some {| BulkData :=
                            Some (Build_SecretResponse <$>
                                    allowedPart a (bulkStoreName req) m) |}
              | None => None
              end).
Proof.
  intros Hc Hrun. unfold GetBulkSecret, bind at 1.
  rewrite (secretsValidateRequest_found _ _ _ _ Hc).
  unfold bind at 1, onWorld. rewrite Hrun.
  unfold bind at 1, emit at 1. unfold bind at 1.
  match goal with |- context [filterSecrets ?a ?n ?l ?s0] =>
    pose proof (filterSecrets_denied_no_scope a n l s0) as Hnone;
    destruct (foldM_filter_run a n l emptyPartition s0) as (new & Hst & Hnew);
    assert (ValidOrder ord → ∀ m, StoreBulkData g = Some m →
              filteredSecrets (filterSecrets a n l s0).1 = allowedPart a n m) as Hfil
  end.
  { intros Hord m Hm. apply filterSecrets_allowedPart. rewrite Hm. simpl. apply Hord. }
  unfold filterSecrets in *.
  match goal with |- context [foldM ?f ?l ?p0 ?s0] =>
    destruct (foldM f l p0 s0) as [p s1] end.
  simpl in Hst, Hfil, Hnone. subst s1.
  unfold bind at 1.
  match goal with |- context [(if ?b then ?x else ?y) ?s0] =>
    assert (∃ new2, (if b then x else y) s0 =
              (tt, {| world := w'; events := (events s0) ++ new2 |})
            ∧ Forall (λ e, isBulkDeniedNoConfig e = false) new2) as (new2 & -> & Hnew2)
  end.
  { destruct (GetSecretsConfiguration (compStore a) (bulkStoreName req)) eqn:Hcfg.
    - destruct (0 <? length (deniedSecrets p)).
      + eexists [_]. split; [reflexivity | by repeat constructor].
      + exists []. unfold ret. simpl. by rewrite app_nil_r.
    - rewrite (Hnone eq_refl). simpl. exists []. unfold ret. simpl.
      by rewrite app_nil_r. }
  simpl. rewrite <- !app_assoc.
  assert (Forall (λ e, isBulkDeniedNoConfig e = false)
            ([SecretInvoked (bulkStoreName req) BulkGet
                (bool_decide (None = None :> option string))] ++ new ++ new2)) as Hall.
  { repeat (apply Forall_app; split); [by repeat constructor | done | done]. }
  destruct (StoreBulkData g) as [m|] eqn:Hm; unfold ret; simpl.
  - eexists _, _. split; [reflexivity |]. split; [exact Hall |].
    intros Hord. rewrite (Hfil Hord m eq_refl).
    by rewrite (fillResponse_fmap (allowedPart a (bulkStoreName req) m)).
  - eexists _, _. split; [reflexivity |]. split; [exact Hall | done].
Qed.

Lemma GetBulkSecret_success a ord req s component g w' :
  ValidOrder ord →
  GetSecretStore (compStore a) (bulkStoreName req) = Some component →
  resiliency a (bulkStoreName req) StoreBulkGetSecretResponse
    (storeBulkGetSecret component {| BulkMetadata := bulkMetadata req |}) (world s)
    = (Some g, None, w') →
  (GetBulkSecret a ord req s).1 =
    (match StoreBulkData g with
     | Some m =>
         Some {| BulkData :=
                   Some (Build_SecretResponse <$> allowedPart a (bulkStoreName req) m) |}
     | None => None
     end, None)
  ∧ world (GetBulkSecret a ord req s).2 = w'.
Proof.
  intros Hord Hc Hrun.
  destruct (GetBulkSecret_success_run a ord req s component g w' Hc Hrun)
    as (resp & new & -> & _ & Hresp).
  simpl. by rewrite (Hresp Hord).
Qed.

(** Every path of the bulk call: its error is decided by the store
    resolution and the runner alone, an error comes with the nil
    response, and no line written is the aggregate line without scope. *)
Lemma GetBulkSecret_run a ord req s :
  ∃ resp new w',
    GetBulkSecret a ord req s =
      (resp, bulkError a req (world s), {| world := w'; events := events s ++ new |})
    ∧ Forall (λ e, isBulkDeniedNoConfig e = false) new
    ∧ (bulkError a req (world s) ≠ None → resp = None).
Proof.
  unfold bulkError.
  destruct (GetSecretStore (compStore a) (bulkStoreName req)) as [component|] eqn:Hc.
  - unfold GetSecretStore in Hc. unfold SecretStoresLen.
    rewrite (lookup_Some_size_ne_0 _ _ _ Hc).
    destruct (resiliency a (bulkStoreName req) StoreBulkGetSecretResponse
                (storeBulkGetSecret component {| BulkMetadata := bulkMetadata req |})
                (world s)) as [[getResponse err] w'] eqn:Hrun.
    simpl. destruct err as [msg|]; [|destruct getResponse as [g|]].
    + unfold GetBulkSecret, bind at 1.
      rewrite (secretsValidateRequest_found _ _ _ _ Hc).
      unfold_monad. rewrite Hrun. simpl.
      eexists _, [_; _], _. rewrite <- app_assoc. split; [reflexivity |].
      split; [by repeat constructor | done].
    + destruct (GetBulkSecret_success_run a ord req s component g w' Hc Hrun)
        as (resp & new & -> & Hnew & _).
      exists resp, new, w'. done.
    + unfold GetBulkSecret, bind at 1.
      rewrite (secretsValidateRequest_found _ _ _ _ Hc).
      unfold_monad. rewrite Hrun. simpl.
      eexists _, [_], _. split; [reflexivity |].
      split; [by repeat constructor | done].
  - unfold GetBulkSecret, bind at 1.
    rewrite (secretsValidateRequest_unresolved a _ s (or_intror Hc)).
    unfold ret, resolveError. simpl.
    destruct (SecretStoresLen (compStore a) =? 0);
      (eexists _, [_], _; split; [reflexivity |]; split; [by repeat constructor | done]).
Qed.

(** The decisions of the loop do not depend on what was written before. *)
Lemma filterStep_result a storeName p kv s1 s2 :
  (filterStep a storeName p kv s1).1 = (filterStep a storeName p kv s2).1.
Proof.
  destruct kv as [key v]. unfold filterStep, bind.
  destruct (isSecretAllowed_run a storeName key s1) as (new1 & -> & _).
  destruct (isSecretAllowed_run a storeName key s2) as (new2 & -> & _).
  by destruct (allowedIn a storeName key).
Qed.

Lemma filterSecrets_result a storeName kvs s1 s2 :
  (filterSecrets a storeName kvs s1).1 = (filterSecrets a storeName kvs s2).1.
Proof.
  unfold filterSecrets. generalize emptyPartition. revert s1 s2.
  induction kvs as [|kv kvs IH]; intros s1 s2 p; [done |].
  rewrite !foldM_cons. rewrite (filterStep_result a storeName p kv s1 s2).
  apply IH.
Qed.

(** The single path, by the outcome of store resolution and access. *)
Lemma GetSecret_unresolved a req s :
  SecretStoresLen (compStore a) = 0
  ∨ GetSecretStore (compStore a) (reqStoreName req) = None →
  GetSecret a req s =
    (None, Some (resolveError a (reqStoreName req)),
     {| world := world s;
        events := events s ++ [DebugError (resolveError a (reqStoreName req))] |}).
Proof.
  intros Hc. unfold GetSecret, bind at 1.
  by rewrite (secretsValidateRequest_unresolved a _ s Hc).
Qed.

Lemma GetSecret_denied a req s component :
  GetSecretStore (compStore a) (reqStoreName req) = Some component →
  allowedIn a (reqStoreName req) (reqKey req) = false →
  ∃ config reason,
    GetSecretsConfiguration (compStore a) (reqStoreName req) = Some config
    ∧ IsSecretAllowedWithReason config (reqKey req) = (false, reason)
    ∧ GetSecret a req s =
        (None, Some (ErrSecretPermissionDenied (reqKey req) (reqStoreName req)),
         {| world := world s;
            events := events s ++
              [InfoAccessDenied (reqKey req) (reqStoreName req) reason
                 (DefaultAccess config) (AllowedSecrets config) (DeniedSecrets config);
               InfoAccessDenied (reqKey req) (reqStoreName req) reason
                 (DefaultAccess config) (AllowedSecrets config) (DeniedSecrets config)] |}).
Proof.
  intros Hc Hdeny. unfold allowedIn, evaluate in Hdeny.
  destruct (GetSecretsConfiguration (compStore a) (reqStoreName req))
    as [config|] eqn:Hcfg; [|done].
  destruct (IsSecretAllowedWithReason config (reqKey req)) as [allowed reason] eqn:Hr.
  simpl in Hdeny. subst allowed. exists config, reason. split; [done |]. split; [done |].
  unfold GetSecret, bind at 1. rewrite (secretsValidateRequest_found _ _ _ _ Hc).
  unfold bind at 1, isSecretAllowed. rewrite Hcfg, Hr.
  unfold bind, emit, ret. simpl. by rewrite <- app_assoc.
Qed.

Lemma GetSecret_allowed a req s component :
  GetSecretStore (compStore a) (reqStoreName req) = Some component →
  allowedIn a (reqStoreName req) (reqKey req) = true →
  ∃ new,
    GetSecret a req s =
      (let '(getResponse, err, w') :=
         resiliency a (reqStoreName req) StoreGetSecretResponse
           (storeGetSecret component
              {| Name := reqKey req; GetMetadata := reqMetadata req |}) (world s) in
       match err with
       | Some msg =>
           (None, Some (ErrSecretGet (reqKey req) (reqStoreName req) msg),
            {| world := w'; events := events s ++ new |})
       | None =>
           (match getResponse with
            | Some g => Some {| Data := StoreData g |}
            | None => None
            end, None, {| world := w'; events := events s ++ new |})
       end).
Proof.
  intros Hc Hal. unfold GetSecret, bind at 1.
  rewrite (secretsValidateRequest_found _ _ _ _ Hc). unfold bind at 1.
  destruct (isSecretAllowed_run a (reqStoreName req) (reqKey req) s) as (new & -> & _).
  rewrite Hal. simpl. unfold_monad. simpl.
  destruct (resiliency a (reqStoreName req) StoreGetSecretResponse _ _)
    as [[getResponse err] w'].
  simpl. destruct err as [msg|]; simpl.
  - eexists. rewrite <- !app_assoc. reflexivity.
  - destruct getResponse.
    + exists (new ++ [SecretInvoked (reqStoreName req) Get true]).
      by rewrite <- !app_assoc.
    + exists (new ++ [SecretInvoked (reqStoreName req) Get true]).
      by rewrite <- !app_assoc.
Qed.

End Facts.

Lemma listingOrder_valid : ValidOrder listingOrder.
Proof. intros V m. reflexivity. Qed.

Lemma reverseOrder_valid : ValidOrder reverseOrder.
Proof. intros V m. unfold reverseOrder. apply reverse_Permutation. Qed.

(** ** The results of the package's tests *)

(** TestIsSecretAllowedWithReason: the five scopes of the table and the
    store without scope, with the reasons the test looks for in the log. *)
Example test_IsSecretAllowedWithReason :
  IsSecretAllowedWithReason (scopeOf "store1" AllowAccess [] []) "allowed-key"
    = (true, DefaultAllow)
  ∧ IsSecretAllowedWithReason (scopeOf "store2" DenyAccess [] []) "random-key"
    = (false, DefaultDeny)
  ∧ IsSecretAllowedWithReason (scopeOf "store3" DenyAccess ["specific-key"] []) "specific-key"
    = (true, AllowedListMatch)
  ∧ IsSecretAllowedWithReason (scopeOf "store4" AllowAccess ["specific-key"] []) "random-key"
    = (false, NotInAllowedList)
  ∧ IsSecretAllowedWithReason (scopeOf "store5" AllowAccess [] ["denied-key"]) "denied-key"
    = (false, DeniedListMatch)
  ∧ isSecretAllowed emptyAPI "non-existent-store" "some-key" freshState
    = (true, {| world := 0;
                events := [DebugNoConfig "non-existent-store" "some-key"] |}).
Proof. repeat split. Qed.

(** TestGetSecret: the error class of each row of the table. *)
Example test_GetSecret :
  (GetSecret testAPI (getReq "store4" "good-key") freshState).1.2 = None
  ∧ (GetSecret testAPI (getReq "store1" "good-key") freshState).1.2 = None
  ∧ (GetSecret testAPI (getReq "store3" "good-key") freshState).1.2 = None
  ∧ (GetSecret testAPI (getReq "store3" "error-key") freshState).1.2
    = Some (ErrSecretGet "error-key" "store3" "error occurs with error-key")
  ∧ (GetSecret testAPI (getReq "store3" "random") freshState).1.2
    = Some (ErrSecretPermissionDenied "random" "store3")
  ∧ (GetSecret testAPI (getReq "store2" "random") freshState).1.2
    = Some (ErrSecretPermissionDenied "random" "store2")
  ∧ (GetSecret testAPI (getReq "nonexistent" "key") freshState).1.2
    = Some (ErrSecretStoreNotFound "nonexistent").
Proof. repeat split; vm_compute; reflexivity. Qed.

(** TestGetBulkSecretEnhancedLogging: the denied key is filtered out and
    the aggregate line names it with its reason. *)
Example test_GetBulkSecretEnhancedLogging :
  GetBulkSecret testAPI listingOrder (bulkReq "test-store") freshState =
    (Some {| BulkData :=
               Some {[ "allowed-key" :=
                         {| Secrets := Some {[ "allowed-key" := "allowed value" ]} |} ]} |},
     None,
     {| world := 1;
        events :=
          [SecretInvoked "test-store" BulkGet true;
           InfoAccessDenied "denied-key" "test-store" DeniedListMatch AllowAccess []
             ["denied-key"];
           DebugError (ErrSecretPermissionDenied "denied-key" "test-store");
           InfoBulkDenied "test-store" AllowAccess
             ["denied-key: Key is in DeniedSecrets list"]] |}).
Proof. vm_compute. reflexivity. Qed.

(** ** The claims *)

(** C1. For every scope configuration and key, the decision of
    [isSecretAllowed] follows the fixed precedence: a key of the denied
    list is denied, whatever the allowed list and the default access say;
    with a non-empty allowed list a key outside it is denied and a key
    inside it (and not denied) is allowed, whatever the default access;
    the default access decides only when the allowed list is empty. *)
Theorem access_decision_precedence {W} (a : Universal W) (storeName key : string)
    (config : SecretsScope) (s : State W)
    (Hcfg : GetSecretsConfiguration (compStore a) storeName = Some config) :
  let allowed := (isSecretAllowed a storeName key s).1 in
  allowed = (IsSecretAllowedWithReason config key).1
  ∧ (key ∈ DeniedSecrets config → allowed = false)
  ∧ (AllowedSecrets config ≠ [] → key ∉ AllowedSecrets config → allowed = false)
  ∧ (AllowedSecrets config ≠ [] → key ∉ DeniedSecrets config →
     (allowed = true ↔ key ∈ AllowedSecrets config))
  ∧ (AllowedSecrets config = [] → key ∉ DeniedSecrets config →
     (allowed = true ↔ DefaultAccess config = AllowAccess)).
Proof.
  intros allowed. subst allowed. rewrite isSecretAllowed_result.
  unfold allowedIn, evaluate. rewrite Hcfg. unfold IsSecretAllowedWithReason.
  split; [done |]. split; [|split; [|split]].
  - intros Hin. apply containsKey_elem_of in Hin. by rewrite Hin.
  - intros Hne Hnin. apply containsKey_not_elem_of in Hnin. rewrite Hnin.
    destruct (containsKey (DeniedSecrets config) key); [done |].
    destruct (length (AllowedSecrets config) =? 0) eqn:Hlen; [|done].
    apply length_eqb_nil in Hlen. done.
  - intros Hne Hnin. apply containsKey_not_elem_of in Hnin. rewrite Hnin.
    destruct (length (AllowedSecrets config) =? 0) eqn:Hlen.
    { apply length_eqb_nil in Hlen. done. }
    simpl. rewrite <- containsKey_elem_of.
    by destruct (containsKey (AllowedSecrets config) key).
  - intros Hnil Hnin. apply containsKey_not_elem_of in Hnin. rewrite Hnin, Hnil.
    simpl. destruct (DefaultAccess config); simpl; naive_solver.
Qed.

Lemma access_decision_precedence_witness :
  (isSecretAllowed testAPI "store1" "not-allowed" freshState).1 = false
  ∧ (isSecretAllowed testAPI "store3" "random" freshState).1 = false
  ∧ (isSecretAllowed testAPI "store3" "good-key" freshState).1 = true
  ∧ (isSecretAllowed testAPI "store1" "good-key" freshState).1 = true.
Proof.
  split; [|split; [|split]].
  - destruct (access_decision_precedence testAPI "store1" "not-allowed"
                (scopeOf "store1" AllowAccess [] ["not-allowed"]) freshState eq_refl)
      as (_ & Hdenied & _).
    apply Hdenied. simpl. compute_done.
  - destruct (access_decision_precedence testAPI "store3" "random"
                (scopeOf "store3" AllowAccess ["error-key"; "good-key"] []) freshState
                eq_refl)
      as (_ & _ & Hexhaustive & _).
    apply Hexhaustive; simpl; [discriminate | compute_done].
  - destruct (access_decision_precedence testAPI "store3" "good-key"
                (scopeOf "store3" AllowAccess ["error-key"; "good-key"] []) freshState
                eq_refl)
      as (_ & _ & _ & Hlisted & _).
    apply Hlisted; simpl; [discriminate | compute_done | compute_done].
  - destruct (access_decision_precedence testAPI "store1" "good-key"
                (scopeOf "store1" AllowAccess [] ["not-allowed"]) freshState eq_refl)
      as (_ & _ & _ & _ & Hdefault).
    apply Hdefault; simpl; [reflexivity | compute_done | reflexivity].
Defined.

(** C2. For every bulk result the runner hands back from the backend,
    the data of the response of [GetBulkSecret] is exactly the allowed
    part: a key the access check denies is absent, also when the backend
    returned a value for it, and a key it allows carries the backend's
    sub-key mapping unchanged. *)
Theorem bulk_response_is_allowed_part {W} (a : Universal W) (ord : RangeOrder)
    (req : GetBulkSecretRequest) (s : State W) (component : SecretStore W)
    (g : StoreBulkGetSecretResponse) (m : gmap string SecretData) (w' : W)
    (Hord : ValidOrder ord)
    (Hstore : GetSecretStore (compStore a) (bulkStoreName req) = Some component)
    (Hrun : resiliency a (bulkStoreName req) StoreBulkGetSecretResponse
              (storeBulkGetSecret component {| BulkMetadata := bulkMetadata req |})
              (world s) = (Some g, None, w'))
    (Hdata : StoreBulkData g = Some m) :
  ∃ data : gmap string SecretResponse,
    (GetBulkSecret a ord req s).1 = (Some {| BulkData := Some data |}, None)
    ∧ (∀ key, (isSecretAllowed a (bulkStoreName req) key s).1 = false →
         data !! key = None)
    ∧ (∀ key, (isSecretAllowed a (bulkStoreName req) key s).1 = true →
         data !! key = Build_SecretResponse <$> m !! key)
    ∧ data = Build_SecretResponse <$> allowedPart a (bulkStoreName req) m.
Proof.
  destruct (GetBulkSecret_success a ord req s component g w' Hord Hstore Hrun) as [-> _].
  rewrite Hdata. eexists. split; [reflexivity |].
  split; [|split; [|reflexivity]]; intros key; rewrite isSecretAllowed_result;
    intros Hal; rewrite lookup_fmap; unfold allowedPart; rewrite map_lookup_filter.
  - destruct (m !! key) as [v|]; simpl; [|done].
    rewrite option_guard_False; [done | simpl; congruence].
  - destruct (m !! key) as [v|]; simpl; [|done].
    by rewrite option_guard_True.
Qed.

Lemma bulk_response_is_allowed_part_witness :
  ∃ data : gmap string SecretResponse,
    (GetBulkSecret testAPI listingOrder (bulkReq "test-store") freshState).1
      = (Some {| BulkData := Some data |}, None)
    ∧ data !! "denied-key" = None
    ∧ data !! "allowed-key"
      = Some {| Secrets := Some {[ "allowed-key" := "allowed value" ]} |}.
Proof.
  destruct (bulk_response_is_allowed_part testAPI listingOrder (bulkReq "test-store")
              freshState (CustomSecretStore testBulkSecrets)
              {| StoreBulkData := testBulkSecrets |}
              {[ "allowed-key" := Some ({[ "allowed-key" := "allowed value" ]}
                                          : gmap string string);
                 "denied-key" := Some ({[ "denied-key" := "denied value" ]}
                                         : gmap string string) ]}
              1 listingOrder_valid)
    as (data & Hresp & Hdenied & Hallowed & _).
  - vm_compute. reflexivity.
  - vm_compute. reflexivity.
  - vm_compute. reflexivity.
  - exists data. split; [exact Hresp |]. split.
    + apply Hdenied. vm_compute. reflexivity.
    + rewrite Hallowed; vm_compute; reflexivity.
Defined.

(** C3. When the store resolves and the access check denies the key,
    [GetSecret] fails with ErrSecretPermissionDenied(key, store) and the
    nil response; the backends are left as they were and the outcome is
    the same whatever the backend and the runner of the store are (the
    single fetch is not invoked); a scope exists for the store and the
    denial line is written with the reason, the default access, the
    allowed list and the denied list (once by the access check and once
    by [GetSecret]), and nothing else is written. *)
Theorem get_secret_denied {W} (a : Universal W) (req : GetSecretRequest) (s : State W)
    (component : SecretStore W)
    (Hstore : GetSecretStore (compStore a) (reqStoreName req) = Some component)
    (Hdeny : (isSecretAllowed a (reqStoreName req) (reqKey req) s).1 = false) :
  ∃ config reason,
    GetSecretsConfiguration (compStore a) (reqStoreName req) = Some config
    ∧ IsSecretAllowedWithReason config (reqKey req) = (false, reason)
    ∧ GetSecret a req s =
        (None, Some (ErrSecretPermissionDenied (reqKey req) (reqStoreName req)),
         {| world := world s;
            events := events s ++
              [InfoAccessDenied (reqKey req) (reqStoreName req) reason
                 (DefaultAccess config) (AllowedSecrets config) (DeniedSecrets config);
               InfoAccessDenied (reqKey req) (reqStoreName req) reason
                 (DefaultAccess config) (AllowedSecrets config) (DeniedSecrets config)] |})
    ∧ (∀ (a' : Universal W) (component' : SecretStore W),
         secretsConfigurations (compStore a') = secretsConfigurations (compStore a) →
         GetSecretStore (compStore a') (reqStoreName req) = Some component' →
         GetSecret a' req s = GetSecret a req s).
Proof.
  rewrite isSecretAllowed_result in Hdeny.
  destruct (GetSecret_denied a req s component Hstore Hdeny)
    as (config & reason & Hcfg & Hr & Hget).
  exists config, reason. split; [done |]. split; [done |]. split; [done |].
  intros a' component' Hsame Hstore'.
  assert (allowedIn a' (reqStoreName req) (reqKey req) = false) as Hdeny'.
  { unfold allowedIn, GetSecretsConfiguration in *. by rewrite Hsame. }
  destruct (GetSecret_denied a' req s component' Hstore' Hdeny')
    as (config' & reason' & Hcfg' & Hr' & Hget').
  unfold GetSecretsConfiguration in *. rewrite Hsame, Hcfg in Hcfg'.
  injection Hcfg' as <-. rewrite Hr in Hr'. injection Hr' as <-.
  by rewrite Hget, Hget'.
Qed.

Lemma get_secret_denied_witness :
  GetSecret testAPI (getReq "store2" "random") freshState =
    (None, Some (ErrSecretPermissionDenied "random" "store2"),
     {| world := 0;
        events :=
          [InfoAccessDenied "random" "store2" NotInAllowedList DenyAccess ["good-key"] [];
           InfoAccessDenied "random" "store2" NotInAllowedList DenyAccess ["good-key"] []]
     |}).
Proof.
  destruct (get_secret_denied testAPI (getReq "store2" "random") freshState
              (CustomSecretStore testBulkSecrets))
    as (config & reason & Hcfg & Hreason & Hget & _).
  - vm_compute. reflexivity.
  - vm_compute. reflexivity.
  - injection Hcfg as <-. injection Hreason as <-. exact Hget.
Defined.

(** C4. Store resolution, for [GetSecret] and [GetBulkSecret] alike:
    with no secret store registered at all the call fails with
    ErrSecretStoreNotConfigured, whatever the store name and the key
    (the check comes before the lookup of the name); with at least one
    registered and none under the given name it fails with
    ErrSecretStoreNotFound(name).  The response is nil in both cases. *)
Theorem store_resolution_errors {W} (a : Universal W) (ord : RangeOrder) :
  (SecretStoresLen (compStore a) = 0 →
   ∀ (storeName key : string) (metadata : GoMap string) (s : State W),
     (secretsValidateRequest a storeName s).1 = inr ErrSecretStoreNotConfigured
     ∧ (GetSecret a {| reqStoreName := storeName; reqKey := key;
                       reqMetadata := metadata |} s).1
       = (None, Some ErrSecretStoreNotConfigured)
     ∧ (GetBulkSecret a ord {| bulkStoreName := storeName;
                               bulkMetadata := metadata |} s).1
       = (None, Some ErrSecretStoreNotConfigured))
  ∧ (SecretStoresLen (compStore a) ≠ 0 →
     ∀ (storeName key : string) (metadata : GoMap string) (s : State W),
       GetSecretStore (compStore a) storeName = None →
       (secretsValidateRequest a storeName s).1 = inr (ErrSecretStoreNotFound storeName)
       ∧ (GetSecret a {| reqStoreName := storeName; reqKey := key;
                         reqMetadata := metadata |} s).1
         = (None, Some (ErrSecretStoreNotFound storeName))
       ∧ (GetBulkSecret a ord {| bulkStoreName := storeName;
                                 bulkMetadata := metadata |} s).1
         = (None, Some (ErrSecretStoreNotFound storeName))).
Proof.
  assert (∀ storeName key metadata s,
            SecretStoresLen (compStore a) = 0
            ∨ GetSecretStore (compStore a) storeName = None →
            (secretsValidateRequest a storeName s).1 = inr (resolveError a storeName)
            ∧ (GetSecret a {| reqStoreName := storeName; reqKey := key;
                              reqMetadata := metadata |} s).1
              = (None, Some (resolveError a storeName))
            ∧ (GetBulkSecret a ord {| bulkStoreName := storeName;
                                      bulkMetadata := metadata |} s).1
              = (None, Some (resolveError a storeName))) as Hboth.
  { intros storeName key metadata s Hc.
    rewrite (secretsValidateRequest_unresolved a storeName s Hc).
    rewrite (GetSecret_unresolved a {| reqStoreName := storeName; reqKey := key;
                                       reqMetadata := metadata |} s Hc).
    split; [done |]. split; [done |].
    unfold GetBulkSecret, bind at 1. simpl.
    by rewrite (secretsValidateRequest_unresolved a storeName s Hc). }
  split.
  - intros Hzero storeName key metadata s.
    specialize (Hboth storeName key metadata s (or_introl Hzero)).
    unfold resolveError in Hboth. by rewrite Hzero in Hboth.
  - intros Hsome storeName key metadata s Hnone.
    specialize (Hboth storeName key metadata s (or_intror Hnone)).
    unfold resolveError in Hboth. apply Nat.eqb_neq in Hsome. by rewrite Hsome in Hboth.
Qed.

Lemma store_resolution_errors_witness :
  ((GetSecret emptyAPI (getReq "store1" "good-key") freshState).1
     = (None, Some ErrSecretStoreNotConfigured)
   ∧ (GetBulkSecret emptyAPI listingOrder (bulkReq "store1") freshState).1
     = (None, Some ErrSecretStoreNotConfigured))
  ∧ ((GetSecret testAPI (getReq "nonexistent" "key") freshState).1
       = (None, Some (ErrSecretStoreNotFound "nonexistent"))
     ∧ (GetBulkSecret testAPI listingOrder (bulkReq "nonexistent") freshState).1
       = (None, Some (ErrSecretStoreNotFound "nonexistent"))).
Proof.
  split.
  - destruct (store_resolution_errors emptyAPI listingOrder) as [Hzero _].
    destruct (Hzero eq_refl "store1" "good-key" None freshState) as (_ & Hget & Hbulk).
    split; [exact Hget | exact Hbulk].
  - destruct (store_resolution_errors testAPI listingOrder) as [_ Hsome].
    assert (SecretStoresLen (compStore testAPI) ≠ 0) as Hlen
      by (vm_compute; discriminate).
    assert (GetSecretStore (compStore testAPI) "nonexistent" = None) as Hnone
      by (vm_compute; reflexivity).
    destruct (Hsome Hlen "nonexistent" "key" None freshState Hnone) as (_ & Hget & Hbulk).
    split; [exact Hget | exact Hbulk].
Defined.

(** C5. When no scope configuration is registered for a store, the
    access check allows every key (it writes the no-configuration line
    and the decision carries the reason NoConfiguration); [GetSecret] on
    such a store never fails with ErrSecretPermissionDenied, and
    [GetBulkSecret] filters nothing out of the backend's result. *)
Theorem no_scope_allows_every_key {W} (a : Universal W) (storeName : string)
    (Hnone : GetSecretsConfiguration (compStore a) storeName = None) :
  (∀ (key : string) (s : State W),
     isSecretAllowed a storeName key s =
       (true, {| world := world s; events := events s ++ [DebugNoConfig storeName key] |})
     ∧ evaluate (GetSecretsConfiguration (compStore a) storeName) key
       = (true, NoConfiguration))
  ∧ (∀ (key : string) (metadata : GoMap string) (s : State W) (key' storeName' : string),
       (GetSecret a {| reqStoreName := storeName; reqKey := key;
                       reqMetadata := metadata |} s).1.2
       ≠ Some (ErrSecretPermissionDenied key' storeName'))
  ∧ (∀ (ord : RangeOrder) (metadata : GoMap string) (s : State W)
       (component : SecretStore W) (g : StoreBulkGetSecretResponse)
       (m : gmap string SecretData) (w' : W),
       ValidOrder ord →
       GetSecretStore (compStore a) storeName = Some component →
       resiliency a storeName StoreBulkGetSecretResponse
         (storeBulkGetSecret component {| BulkMetadata := metadata |}) (world s)
         = (Some g, None, w') →
       StoreBulkData g = Some m →
       (GetBulkSecret a ord {| bulkStoreName := storeName;
                               bulkMetadata := metadata |} s).1
       = (Some {| BulkData := Some (Build_SecretResponse <$> m) |}, None)).
Proof.
  split; [|split].
  - intros key s. unfold isSecretAllowed, evaluate. rewrite Hnone. done.
  - intros key metadata s key' storeName'.
    set (req := {| reqStoreName := storeName; reqKey := key; reqMetadata := metadata |}).
    destruct (GetSecretStore (compStore a) storeName) as [component|] eqn:Hstore.
    + destruct (GetSecret_allowed a req s component Hstore
                  (allowedIn_no_scope a storeName key Hnone)) as (new & ->).
      destruct (resiliency a (reqStoreName req) StoreGetSecretResponse _ _)
        as [[getResponse err] w'].
      by destruct err.
    + rewrite (GetSecret_unresolved a req s (or_intror Hstore)). simpl.
      unfold resolveError. by destruct (SecretStoresLen (compStore a) =? 0).
  - intros ord metadata s component g m w' Hord Hstore Hrun Hdata.
    destruct (GetBulkSecret_success a ord
                {| bulkStoreName := storeName; bulkMetadata := metadata |}
                s component g w' Hord Hstore Hrun) as [-> _].
    rewrite Hdata. simpl.
    assert (allowedPart a storeName m = m) as ->; [|done].
    unfold allowedPart. apply map_filter_id. intros key v _. simpl.
    by apply allowedIn_no_scope.
Qed.

Lemma no_scope_allows_every_key_witness :
  isSecretAllowed testAPI "store4" "good-key" freshState
    = (true, {| world := 0; events := [DebugNoConfig "store4" "good-key"] |})
  ∧ (GetSecret testAPI (getReq "store4" "good-key") freshState).1.2
    ≠ Some (ErrSecretPermissionDenied "good-key" "store4")
  ∧ (GetBulkSecret testAPI listingOrder (bulkReq "store4") freshState).1
    = (Some {| BulkData :=
                 Some {[ "allowed-key" :=
                           {| Secrets := Some {[ "allowed-key" := "allowed value" ]} |};
                         "denied-key" :=
                           {| Secrets := Some {[ "denied-key" := "denied value" ]} |} ]} |},
       None).
Proof.
  destruct (no_scope_allows_every_key testAPI "store4") as (Hallow & Hget & Hbulk).
  - vm_compute. reflexivity.
  - split; [|split].
    + apply (Hallow "good-key" freshState).
    + apply (Hget "good-key" None freshState).
    + unfold bulkReq.
      rewrite (Hbulk listingOrder None freshState (CustomSecretStore testBulkSecrets)
                 {| StoreBulkData := testBulkSecrets |}
                 {[ "allowed-key" := Some ({[ "allowed-key" := "allowed value" ]}
                                             : gmap string string);
                    "denied-key" := Some ({[ "denied-key" := "denied value" ]}
                                            : gmap string string) ]}
                 1 listingOrder_valid);
        vm_compute; reflexivity.
Defined.

(** Against C6 as stated: the backend of "empty-store" answers a bulk
    call with success and an empty, non-nil map, so it returned no key,
    and the response is present (with empty data), not absent. *)
Lemma bulk_no_keys_response_present :
  GetSecretStore (compStore testAPI) "empty-store" = Some (CustomSecretStore (Some ∅))
  ∧ storeBulkGetSecret (CustomSecretStore (Some ∅)) {| BulkMetadata := None |} 0
    = ({| StoreBulkData := Some ∅ |}, None, 1)
  ∧ goLen (StoreBulkData {| StoreBulkData := Some ∅ |}) = 0
  ∧ (GetBulkSecret testAPI listingOrder (bulkReq "empty-store") freshState).1
    = (Some {| BulkData := Some ∅ |}, None)
  ∧ (GetBulkSecret testAPI listingOrder (bulkReq "empty-store") freshState).1.1 ≠ None.
Proof. repeat split; vm_compute; congruence. Qed.

(** C6, amended. On a successful backend bulk call that hands back a
    result, the response of [GetBulkSecret] is absent exactly when the
    backend's data map is nil; when the map is not nil and every key in
    it is denied (also when it holds no key at all) the response is
    present and its data is the empty map. *)
Theorem bulk_response_presence {W} (a : Universal W) (ord : RangeOrder)
    (req : GetBulkSecretRequest) (s : State W) (component : SecretStore W)
    (g : StoreBulkGetSecretResponse) (w' : W)
    (Hord : ValidOrder ord)
    (Hstore : GetSecretStore (compStore a) (bulkStoreName req) = Some component)
    (Hrun : resiliency a (bulkStoreName req) StoreBulkGetSecretResponse
              (storeBulkGetSecret component {| BulkMetadata := bulkMetadata req |})
              (world s) = (Some g, None, w')) :
  ((GetBulkSecret a ord req s).1.1 = None ↔ StoreBulkData g = None)
  ∧ (∀ m : gmap string SecretData,
       StoreBulkData g = Some m →
       (∀ key, key ∈ dom m →
               (isSecretAllowed a (bulkStoreName req) key s).1 = false) →
       (GetBulkSecret a ord req s).1 = (Some {| BulkData := Some ∅ |}, None)).
Proof.
  destruct (GetBulkSecret_success a ord req s component g w' Hord Hstore Hrun) as [-> _].
  split.
  - simpl. by destruct (StoreBulkData g).
  - intros m -> Hall.
    assert (allowedPart a (bulkStoreName req) m = ∅) as ->; [|by rewrite fmap_empty].
    apply map_empty_filter_2. intros key v Hkey. simpl.
    specialize (Hall key (proj2 (elem_of_dom m key) (mk_is_Some _ _ Hkey))).
    rewrite isSecretAllowed_result in Hall. congruence.
Qed.

Lemma bulk_response_presence_witness :
  (GetBulkSecret testAPI listingOrder (bulkReq "store1") freshState).1.1 = None
  ∧ (GetBulkSecret testAPI listingOrder (bulkReq "store2") freshState).1
    = (Some {| BulkData := Some ∅ |}, None).
Proof.
  split.
  - destruct (bulk_response_presence testAPI listingOrder (bulkReq "store1") freshState
                (CustomSecretStore None) {| StoreBulkData := None |} 1
                listingOrder_valid) as [Hnil _];
      [vm_compute; reflexivity | vm_compute; reflexivity |].
    apply Hnil. reflexivity.
  - destruct (bulk_response_presence testAPI listingOrder (bulkReq "store2") freshState
                (CustomSecretStore testBulkSecrets) {| StoreBulkData := testBulkSecrets |}
                1 listingOrder_valid) as [_ Hdenied];
      [vm_compute; reflexivity | vm_compute; reflexivity |].
    apply (Hdenied {[ "allowed-key" := Some ({[ "allowed-key" := "allowed value" ]}
                                               : gmap string string);
                      "denied-key" := Some ({[ "denied-key" := "denied value" ]}
                                              : gmap string string) ]} eq_refl).
    intros key Hkey. rewrite dom_insert_L, dom_singleton_L in Hkey.
    apply elem_of_union in Hkey as [Hkey|Hkey];
      apply elem_of_singleton in Hkey as ->; vm_compute; reflexivity.
Defined.

(** C7. For a store without scope configuration the filtering loop
    denies no key, whatever entries it visits; and on every path of
    [GetBulkSecret], for every receiver and request, the aggregate line
    that names denied keys without reasons is never written. *)
Theorem no_scope_no_bulk_denial {W} (a : Universal W) (ord : RangeOrder)
    (req : GetBulkSecretRequest) (s : State W) :
  (GetSecretsConfiguration (compStore a) (bulkStoreName req) = None →
   ∀ (kvs : list (string * SecretData)) (s0 : State W),
     deniedSecrets (filterSecrets a (bulkStoreName req) kvs s0).1 = [])
  ∧ ∃ new : list Event,
      events (GetBulkSecret a ord req s).2 = events s ++ new
      ∧ ∀ (storeName : string) (keys : list string),
          InfoBulkDeniedNoConfig storeName keys ∉ new.
Proof.
  split.
  - intros Hnone kvs s0. by apply filterSecrets_denied_no_scope.
  - destruct (GetBulkSecret_run a ord req s) as (resp & new & w' & -> & Hnew & _).
    exists new. split; [done |]. intros storeName keys Hin.
    rewrite Forall_forall in Hnew. specialize (Hnew _ Hin). discriminate.
Qed.

Lemma no_scope_no_bulk_denial_witness :
  deniedSecrets
    (filterSecrets testAPI "store4"
       [("allowed-key", None); ("denied-key", None)] freshState).1 = []
  ∧ ∃ new : list Event,
      events (GetBulkSecret testAPI listingOrder (bulkReq "store4") freshState).2
        = events freshState ++ new
      ∧ ∀ (storeName : string) (keys : list string),
          InfoBulkDeniedNoConfig storeName keys ∉ new.
Proof.
  destruct (no_scope_no_bulk_denial testAPI listingOrder (bulkReq "store4") freshState)
    as [Hdenied Hline].
  split; [|exact Hline].
  apply Hdenied. vm_compute. reflexivity.
Defined.

(** The bulk call when it ends before the filtering loop: the order of
    iteration plays no part. *)
Lemma GetBulkSecret_unresolved {W} (a : Universal W) ord req (s : State W) :
  GetSecretStore (compStore a) (bulkStoreName req) = None →
  GetBulkSecret a ord req s =
    (None, Some (resolveError a (bulkStoreName req)),
     {| world := world s;
        events := events s ++ [DebugError (resolveError a (bulkStoreName req))] |}).
Proof.
  intros Hc. unfold GetBulkSecret, bind at 1.
  by rewrite (secretsValidateRequest_unresolved a _ s (or_intror Hc)).
Qed.

Lemma GetBulkSecret_failed {W} (a : Universal W) ord req (s : State W)
    component getResponse msg w' :
  GetSecretStore (compStore a) (bulkStoreName req) = Some component →
  resiliency a (bulkStoreName req) StoreBulkGetSecretResponse
    (storeBulkGetSecret component {| BulkMetadata := bulkMetadata req |}) (world s)
    = (getResponse, Some msg, w') →
  GetBulkSecret a ord req s =
    (None, Some (ErrBulkSecretGet (bulkStoreName req) msg),
     {| world := w';
        events := events s ++
          [SecretInvoked (bulkStoreName req) BulkGet false;
           DebugError (ErrBulkSecretGet (bulkStoreName req) msg)] |}).
Proof.
  intros Hc Hrun. unfold GetBulkSecret, bind at 1.
  rewrite (secretsValidateRequest_found _ _ _ _ Hc).
  unfold_monad. rewrite Hrun. simpl. by rewrite <- app_assoc.
Qed.

Lemma GetBulkSecret_nil_result {W} (a : Universal W) ord req (s : State W) component w' :
  GetSecretStore (compStore a) (bulkStoreName req) = Some component →
  resiliency a (bulkStoreName req) StoreBulkGetSecretResponse
    (storeBulkGetSecret component {| BulkMetadata := bulkMetadata req |}) (world s)
    = (None, None, w') →
  GetBulkSecret a ord req s =
    (None, None,
     {| world := w';
        events := events s ++ [SecretInvoked (bulkStoreName req) BulkGet true] |}).
Proof.
  intros Hc Hrun. unfold GetBulkSecret, bind at 1.
  rewrite (secretsValidateRequest_found _ _ _ _ Hc).
  unfold_monad. by rewrite Hrun.
Qed.

(** C8. Bulk filtering is a function of the scope and the backend's
    entries alone: running the loop again over the same entries gives
    the same partition, whatever was written before; and two valid
    orders of iteration over the same map keep the same entries, deny
    the same keys (as sets: the lists are permutations of each other)
    and make [GetBulkSecret] return the same response and error, with
    the backends in the same state. *)
Theorem bulk_filtering_order_independent {W} (a : Universal W) (ord1 ord2 : RangeOrder)
    (req : GetBulkSecretRequest) (s : State W)
    (Hord1 : ValidOrder ord1) (Hord2 : ValidOrder ord2) :
  (∀ (kvs : list (string * SecretData)) (s1 s2 : State W),
     (filterSecrets a (bulkStoreName req) kvs s1).1
     = (filterSecrets a (bulkStoreName req) kvs s2).1)
  ∧ (∀ (m : gmap string SecretData) (s1 s2 : State W),
       filteredSecrets (filterSecrets a (bulkStoreName req) (ord1 _ m) s1).1
       = filteredSecrets (filterSecrets a (bulkStoreName req) (ord2 _ m) s2).1
       ∧ deniedSecrets (filterSecrets a (bulkStoreName req) (ord1 _ m) s1).1
         ≡ₚ deniedSecrets (filterSecrets a (bulkStoreName req) (ord2 _ m) s2).1)
  ∧ (GetBulkSecret a ord1 req s).1 = (GetBulkSecret a ord2 req s).1
  ∧ world (GetBulkSecret a ord1 req s).2 = world (GetBulkSecret a ord2 req s).2.
Proof.
  split; [|split].
  - intros kvs s1 s2. apply filterSecrets_result.
  - intros m s1 s2. split.
    + rewrite (filterSecrets_allowedPart a _ m (ord1 _ m) s1 (Hord1 _ m)).
      by rewrite (filterSecrets_allowedPart a _ m (ord2 _ m) s2 (Hord2 _ m)).
    + rewrite !filterSecrets_denied.
      by rewrite (Hord1 _ m), (Hord2 _ m).
  - destruct (GetSecretStore (compStore a) (bulkStoreName req)) as [component|] eqn:Hc.
    + destruct (resiliency a (bulkStoreName req) StoreBulkGetSecretResponse
                  (storeBulkGetSecret component {| BulkMetadata := bulkMetadata req |})
                  (world s)) as [[getResponse [msg|]] w'] eqn:Hrun;
        [|destruct getResponse as [g|]].
      * by rewrite !(GetBulkSecret_failed a _ req s component getResponse msg w' Hc Hrun).
      * destruct (GetBulkSecret_success a ord1 req s component g w' Hord1 Hc Hrun)
          as [-> ->].
        by destruct (GetBulkSecret_success a ord2 req s component g w' Hord2 Hc Hrun)
          as [-> ->].
      * by rewrite !(GetBulkSecret_nil_result a _ req s component w' Hc Hrun).
    + by rewrite !(GetBulkSecret_unresolved a _ req s Hc).
Qed.

Lemma bulk_filtering_order_independent_witness :
  (GetBulkSecret testAPI listingOrder (bulkReq "test-store") freshState).1
  = (GetBulkSecret testAPI reverseOrder (bulkReq "test-store") freshState).1.
Proof.
  apply (bulk_filtering_order_independent testAPI listingOrder reverseOrder
           (bulkReq "test-store") freshState listingOrder_valid reverseOrder_valid).
Defined.

(** C9. [GetBulkSecret] never fails with ErrSecretPermissionDenied: its
    error is nil, a store-resolution error (ErrSecretStoreNotConfigured
    or ErrSecretStoreNotFound) or ErrBulkSecretGet from the backend
    call; and the error is the same whatever scope configurations are
    registered, so a denial removes keys and never fails the call. *)
Theorem bulk_never_permission_denied {W} (a : Universal W) (ord : RangeOrder)
    (req : GetBulkSecretRequest) (s : State W) :
  let err := (GetBulkSecret a ord req s).1.2 in
  (err = None
   ∨ err = Some ErrSecretStoreNotConfigured
   ∨ err = Some (ErrSecretStoreNotFound (bulkStoreName req))
   ∨ ∃ msg, err = Some (ErrBulkSecretGet (bulkStoreName req) msg))
  ∧ (∀ key storeName, err ≠ Some (ErrSecretPermissionDenied key storeName))
  ∧ (∀ scopes : gmap string SecretsScope,
       (GetBulkSecret
          {| compStore := {| secretStores := secretStores (compStore a);
                             secretsConfigurations := scopes |};
             resiliency := resiliency a |} ord req s).1.2 = err).
Proof.
  intros err. subst err.
  assert ((GetBulkSecret a ord req s).1.2 = bulkError a req (world s)) as ->.
  { by destruct (GetBulkSecret_run a ord req s) as (resp & new & w' & -> & _). }
  assert (bulkError a req (world s) = None
          ∨ bulkError a req (world s) = Some ErrSecretStoreNotConfigured
          ∨ bulkError a req (world s) = Some (ErrSecretStoreNotFound (bulkStoreName req))
          ∨ ∃ msg, bulkError a req (world s)
                   = Some (ErrBulkSecretGet (bulkStoreName req) msg)) as Hcases.
  { unfold bulkError.
    destruct (SecretStoresLen (compStore a) =? 0); [by right; left |].
    destruct (GetSecretStore (compStore a) (bulkStoreName req)) as [component|];
      [|by right; right; left].
    destruct (resiliency a (bulkStoreName req) StoreBulkGetSecretResponse _ _).1.2
      as [msg|]; [|by left].
    right; right; right. by exists msg. }
  split; [exact Hcases |]. split.
  - intros key storeName Herr. rewrite Herr in Hcases.
    destruct Hcases as [?|[?|[?|[msg ?]]]]; discriminate.
  - intros scopes.
    by destruct (GetBulkSecret_run
                   {| compStore := {| secretStores := secretStores (compStore a);
                                      secretsConfigurations := scopes |};
                      resiliency := resiliency a |} ord req s)
      as (resp & new & w' & -> & _).
Qed.

(** C10. Whenever [GetSecret] or [GetBulkSecret] returns an error, the
    response it returns is nil, for every receiver, request, state of
    the backends and outcome of the runner. *)
Theorem error_means_nil_response {W} (a : Universal W) (ord : RangeOrder)
    (req : GetSecretRequest) (breq : GetBulkSecretRequest) (s : State W) :
  ((GetSecret a req s).1.2 ≠ None → (GetSecret a req s).1.1 = None)
  ∧ ((GetBulkSecret a ord breq s).1.2 ≠ None → (GetBulkSecret a ord breq s).1.1 = None).
Proof.
  split.
  - destruct (GetSecretStore (compStore a) (reqStoreName req)) as [component|] eqn:Hc.
    + destruct (allowedIn a (reqStoreName req) (reqKey req)) eqn:Hal.
      * destruct (GetSecret_allowed a req s component Hc Hal) as (new & ->).
        destruct (resiliency a (reqStoreName req) StoreGetSecretResponse _ _)
          as [[getResponse err] w'].
        by destruct err.
      * by destruct (GetSecret_denied a req s component Hc Hal)
          as (config & reason & _ & _ & ->).
    + by rewrite (GetSecret_unresolved a req s (or_intror Hc)).
  - destruct (GetBulkSecret_run a ord breq s) as (resp & new & w' & -> & _ & Hnil).
    exact Hnil.
Qed.

Lemma error_means_nil_response_witness :
  (GetSecret testAPI (getReq "store3" "error-key") freshState).1.1 = None
  ∧ (GetBulkSecret testAPI listingOrder (bulkReq "nonexistent") freshState).1.1 = None.
Proof.
  destruct (error_means_nil_response testAPI listingOrder (getReq "store3" "error-key")
              (bulkReq "nonexistent") freshState) as [Hget Hbulk].
  split; [apply Hget | apply Hbulk]; vm_compute; discriminate.
Defined.

(** ** The log and the state of every path *)

Section Lines.
Context {W : Type}.
Implicit Types (a : Universal W) (s : State W).

Lemma isSecretAllowed_lines a storeName key s :
  isSecretAllowed a storeName key s =
    (allowedIn a storeName key,
     {| world := world s;
        events := events s
          ++ accessLines (GetSecretsConfiguration (compStore a) storeName) storeName key |}).
Proof.
  unfold isSecretAllowed, allowedIn, evaluate, accessLines.
  destruct (GetSecretsConfiguration (compStore a) storeName) as [config|]; [|done].
  destruct (IsSecretAllowedWithReason config key) as [[] reason]; unfold_monad; simpl.
  - by rewrite app_nil_r, state_eta.
  - done.
Qed.

Lemma filterStep_lines a storeName p kv s :
  (filterStep a storeName p kv s).2 =
    {| world := world s;
       events := events s
         ++ filterLines (GetSecretsConfiguration (compStore a) storeName) storeName kv.1 |}.
Proof.
  destruct kv as [key v]. unfold filterStep, bind, filterLines.
  rewrite isSecretAllowed_lines. unfold allowedIn. simpl.
  destruct (evaluate (GetSecretsConfiguration (compStore a) storeName) key)
    as [[] reason]; unfold_monad; simpl.
  - by rewrite app_nil_r.
  - by rewrite <- app_assoc.
Qed.

Lemma foldM_filter_lines a storeName kvs : ∀ p s,
  (foldM (filterStep a storeName) kvs p s).2 =
    {| world := world s;
       events := events s
         ++ flat_map (filterLines (GetSecretsConfiguration (compStore a) storeName)
                        storeName) kvs.*1 |}.
Proof.
  induction kvs as [|kv kvs IH]; intros p s.
  - rewrite foldM_nil. simpl. by rewrite app_nil_r, state_eta.
  - rewrite foldM_cons, IH, filterStep_lines. simpl. by rewrite <- app_assoc.
Qed.

Lemma filterStep_reasons a storeName p key v s :
  deniedSecretReasons (filterStep a storeName p (key, v) s).1 =
    deniedSecretReasons p
    ++ match GetSecretsConfiguration (compStore a) storeName with
       | Some config =>
           (λ k, keyReason k (IsSecretAllowedWithReason config k).2)
             <$> deniedKeys (Some config) [key]
       | None => []
       end.
Proof.
  unfold filterStep, bind. rewrite isSecretAllowed_lines.
  unfold allowedIn, deniedKeys.
  destruct (GetSecretsConfiguration (compStore a) storeName) as [config|]; simpl.
  - rewrite filter_cons, filter_nil.
    destruct (IsSecretAllowedWithReason config key) as [[] reason] eqn:Hr;
      unfold_monad; simpl.
    + by rewrite app_nil_r.
    + by rewrite Hr.
  - unfold_monad. simpl. by rewrite app_nil_r.
Qed.

Lemma foldM_filter_reasons a storeName kvs : ∀ p s,
  deniedSecretReasons (foldM (filterStep a storeName) kvs p s).1 =
    deniedSecretReasons p
    ++ match GetSecretsConfiguration (compStore a) storeName with
       | Some config =>
           (λ k, keyReason k (IsSecretAllowedWithReason config k).2)
             <$> deniedKeys (Some config) kvs.*1
       | None => []
       end.
Proof.
  induction kvs as [|[key v] kvs IH]; intros p s.
  - rewrite foldM_nil. simpl.
    destruct (GetSecretsConfiguration (compStore a) storeName); by rewrite app_nil_r.
  - rewrite foldM_cons, IH, filterStep_reasons.
    destruct (GetSecretsConfiguration (compStore a) storeName) as [config|].
    + rewrite <- app_assoc, <- fmap_app. unfold deniedKeys.
      by rewrite <- filter_app.
    + by rewrite !app_nil_r.
Qed.

Lemma filterSecrets_denied_keys a storeName kvs s :
  deniedSecrets (filterSecrets a storeName kvs s).1 =
    deniedKeys (GetSecretsConfiguration (compStore a) storeName) kvs.*1.
Proof. by rewrite filterSecrets_denied. Qed.

(** The whole state the bulk path leaves after a successful backend call.
    It holds for every order of iteration, valid or not. *)
Lemma GetBulkSecret_success_lines a ord req s component g w' :
  GetSecretStore (compStore a) (bulkStoreName req) = Some component →
  resiliency a (bulkStoreName req) StoreBulkGetSecretResponse
    (storeBulkGetSecret component {| BulkMetadata := bulkMetadata req |}) (world s)
    = (Some g, None, w') →
  (GetBulkSecret a ord req s).2 =
    {| world := w';
       events := events s
         ++ [SecretInvoked (bulkStoreName req) BulkGet true]
         ++ flat_map (filterLines (GetSecretsConfiguration (compStore a) (bulkStoreName req))
                        (bulkStoreName req)) (rangeOf ord (StoreBulkData g)).*1
         ++ aggregateLines (GetSecretsConfiguration (compStore a) (bulkStoreName req))
              (bulkStoreName req)
              (deniedKeys (GetSecretsConfiguration (compStore a) (bulkStoreName req))
                 (rangeOf ord (StoreBulkData g)).*1) |}.
Proof.
  intros Hc Hrun. unfold GetBulkSecret, bind at 1.
  rewrite (secretsValidateRequest_found _ _ _ _ Hc).
  unfold bind at 1, onWorld. rewrite Hrun.
  unfold bind at 1, emit at 1. unfold bind at 1.
  match goal with |- context [filterSecrets ?a ?n ?l ?s0] =>
    pose proof (filterSecrets_denied_keys a n l s0) as Hden;
    pose proof (foldM_filter_reasons a n l emptyPartition s0) as Hreasons;
    pose proof (foldM_filter_lines a n l emptyPartition s0) as Hst
  end.
  unfold filterSecrets in *.
  match goal with |- context [foldM ?f ?l ?p0 ?s0] =>
    destruct (foldM f l p0 s0) as [p s1] end.
  simpl in Hden, Hst, Hreasons. subst s1.
  unfold bind at 1. rewrite Hden, Hreasons. unfold aggregateLines.
  destruct (GetSecretsConfiguration (compStore a) (bulkStoreName req)) as [config|].
  - destruct (deniedKeys (Some config) (rangeOf ord (StoreBulkData g)).*1)
      as [|key denied]; unfold_monad; simpl.
    + rewrite app_nil_r, <- app_assoc. by destruct (StoreBulkData g).
    + rewrite <- !app_assoc. by destruct (StoreBulkData g).
  - destruct (deniedKeys None (rangeOf ord (StoreBulkData g)).*1)
      as [|key denied]; unfold_monad; simpl.
    + rewrite app_nil_r, <- app_assoc. by destruct (StoreBulkData g).
    + rewrite <- !app_assoc. by destruct (StoreBulkData g).
Qed.

(** The single path once the store resolves and the key is allowed. *)
Lemma GetSecret_allowed_lines a req s component getResponse err w' :
  GetSecretStore (compStore a) (reqStoreName req) = Some component →
  allowedIn a (reqStoreName req) (reqKey req) = true →
  resiliency a (reqStoreName req) StoreGetSecretResponse
    (storeGetSecret component {| Name := reqKey req; GetMetadata := reqMetadata req |})
    (world s) = (getResponse, err, w') →
  GetSecret a req s =
    (match err with
     | Some msg => (None, Some (ErrSecretGet (reqKey req) (reqStoreName req) msg))
     | None => (match getResponse with
                | Some g => Some {| Data := StoreData g |}
                | None => None
                end, None)
     end,
     {| world := w';
        events := events s
          ++ accessLines (GetSecretsConfiguration (compStore a) (reqStoreName req))
               (reqStoreName req) (reqKey req)
          ++ [SecretInvoked (reqStoreName req) Get (bool_decide (err = None))]
          ++ match err with
             | Some msg => [DebugError (ErrSecretGet (reqKey req) (reqStoreName req) msg)]
             | None => []
             end |}).
Proof.
  intros Hc Hal Hrun. unfold GetSecret, bind at 1.
  rewrite (secretsValidateRequest_found _ _ _ _ Hc). unfold bind at 1.
  rewrite isSecretAllowed_lines, Hal. simpl. unfold_monad. simpl. rewrite Hrun.
  destruct err as [msg|]; simpl.
  - by rewrite <- !app_assoc.
  - rewrite <- !app_assoc. by destruct getResponse.
Qed.

End Lines.

Lemma accessLines_not_invoked scope storeName key :
  Forall (λ e, isSecretInvoked e = false) (accessLines scope storeName key).
Proof.
  unfold accessLines. destruct scope as [config|]; [|by repeat constructor].
  destruct (IsSecretAllowedWithReason config key) as [[] reason]; by repeat constructor.
Qed.

Lemma filterLines_not_invoked scope storeName keys :
  Forall (λ e, isSecretInvoked e = false) (flat_map (filterLines scope storeName) keys).
Proof.
  induction keys as [|key keys IH]; [constructor |].
  simpl. apply Forall_app. split; [|exact IH].
  unfold filterLines. apply Forall_app. split; [apply accessLines_not_invoked |].
  destruct (evaluate scope key).1; by repeat constructor.
Qed.

Lemma aggregateLines_not_invoked scope storeName denied :
  Forall (λ e, isSecretInvoked e = false) (aggregateLines scope storeName denied).
Proof.
  unfold aggregateLines. destruct denied; [constructor |].
  destruct scope; by repeat constructor.
Qed.

(** ** Further properties of the gateway *)

(** X1. When the store resolves, the key is allowed and the runner hands
    back a result without error, [GetSecret] returns the backend's data
    unchanged (the nil response when the runner's result is nil) and no
    error, leaves the backends as the runner left them, and writes, after
    the lines of the access check, exactly the telemetry of a successful
    call. *)
Theorem get_secret_returns_backend_data {W} (a : Universal W) (req : GetSecretRequest)
    (s : State W) (component : SecretStore W)
    (getResponse : option StoreGetSecretResponse) (w' : W)
    (Hstore : GetSecretStore (compStore a) (reqStoreName req) = Some component)
    (Hallow : (isSecretAllowed a (reqStoreName req) (reqKey req) s).1 = true)
    (Hrun : resiliency a (reqStoreName req) StoreGetSecretResponse
              (storeGetSecret component
                 {| Name := reqKey req; GetMetadata := reqMetadata req |})
              (world s) = (getResponse, None, w')) :
  GetSecret a req s =
    (match getResponse with
     | Some g => Some {| Data := StoreData g |}
     | None => None
     end, None,
     {| world := w';
        events := events (isSecretAllowed a (reqStoreName req) (reqKey req) s).2
                  ++ [SecretInvoked (reqStoreName req) Get true] |}).
Proof.
  rewrite isSecretAllowed_result in Hallow.
  rewrite (GetSecret_allowed_lines a req s component getResponse None w' Hstore Hallow Hrun).
  rewrite isSecretAllowed_lines. simpl. by rewrite <- app_assoc.
Qed.

Lemma get_secret_returns_backend_data_witness :
  GetSecret testAPI (getReq "store4" "good-key") freshState =
    (Some {| Data := Some {[ "good-key" := "life is good" ]} |}, None,
     {| world := 1;
        events := [DebugNoConfig "store4" "good-key"; SecretInvoked "store4" Get true] |}).
Proof.
  rewrite (get_secret_returns_backend_data testAPI (getReq "store4" "good-key") freshState
             (CustomSecretStore testBulkSecrets)
             (Some {| StoreData := Some {[ "good-key" := "life is good" ]} |}) 1);
    vm_compute; reflexivity.
Defined.

(** X2. When the store resolves, the key is allowed and the runner ends
    with an error, [GetSecret] returns the nil response, also when the
    runner handed back a result with the error, and
    ErrSecretGet(key, store, message) with the runner's message; it
    writes the telemetry of a failed call and then the error at debug
    level. *)
Theorem get_secret_backend_failure {W} (a : Universal W) (req : GetSecretRequest)
    (s : State W) (component : SecretStore W)
    (getResponse : option StoreGetSecretResponse) (msg : string) (w' : W)
    (Hstore : GetSecretStore (compStore a) (reqStoreName req) = Some component)
    (Hallow : (isSecretAllowed a (reqStoreName req) (reqKey req) s).1 = true)
    (Hrun : resiliency a (reqStoreName req) StoreGetSecretResponse
              (storeGetSecret component
                 {| Name := reqKey req; GetMetadata := reqMetadata req |})
              (world s) = (getResponse, Some msg, w')) :
  GetSecret a req s =
    (None, Some (ErrSecretGet (reqKey req) (reqStoreName req) msg),
     {| world := w';
        events := events (isSecretAllowed a (reqStoreName req) (reqKey req) s).2
                  ++ [SecretInvoked (reqStoreName req) Get false;
                      DebugError (ErrSecretGet (reqKey req) (reqStoreName req) msg)] |}).
Proof.
  rewrite isSecretAllowed_result in Hallow.
  rewrite (GetSecret_allowed_lines a req s component getResponse (Some msg) w'
             Hstore Hallow Hrun).
  rewrite isSecretAllowed_lines. simpl. by rewrite <- app_assoc.
Qed.

Lemma get_secret_backend_failure_witness :
  GetSecret testAPI (getReq "store3" "error-key") freshState =
    (None, Some (ErrSecretGet "error-key" "store3" "error occurs with error-key"),
     {| world := 1;
        events := [SecretInvoked "store3" Get false;
                   DebugError (ErrSecretGet "error-key" "store3"
                                 "error occurs with error-key")] |}).
Proof.
  rewrite (get_secret_backend_failure testAPI (getReq "store3" "error-key") freshState
             (CustomSecretStore None) (Some {| StoreData := None |})
             "error occurs with error-key" 1);
    vm_compute; reflexivity.
Defined.

(** X3. The error of [GetSecret] is nil or one of four errors that carry
    the key and the store name of the request, and each is returned in
    exactly one situation: ErrSecretStoreNotConfigured iff no store is
    registered; ErrSecretStoreNotFound iff stores are registered and none
    under the name; ErrSecretPermissionDenied iff the store resolves and
    the access check denies the key (so store resolution comes first);
    ErrSecretGet iff the store resolves, the key is allowed and the
    runner ends with an error. *)
Theorem get_secret_error_cases {W} (a : Universal W) (req : GetSecretRequest)
    (s : State W) :
  let err := (GetSecret a req s).1.2 in
  let storeName := reqStoreName req in
  let key := reqKey req in
  (err = None
   ∨ err = Some ErrSecretStoreNotConfigured
   ∨ err = Some (ErrSecretStoreNotFound storeName)
   ∨ err = Some (ErrSecretPermissionDenied key storeName)
   ∨ ∃ msg, err = Some (ErrSecretGet key storeName msg))
  ∧ (err = Some ErrSecretStoreNotConfigured ↔ SecretStoresLen (compStore a) = 0)
  ∧ (err = Some (ErrSecretStoreNotFound storeName) ↔
     SecretStoresLen (compStore a) ≠ 0 ∧ GetSecretStore (compStore a) storeName = None)
  ∧ (err = Some (ErrSecretPermissionDenied key storeName) ↔
     is_Some (GetSecretStore (compStore a) storeName)
     ∧ (isSecretAllowed a storeName key s).1 = false)
  ∧ (∀ msg, err = Some (ErrSecretGet key storeName msg) ↔
       ∃ component,
         GetSecretStore (compStore a) storeName = Some component
         ∧ (isSecretAllowed a storeName key s).1 = true
         ∧ (resiliency a storeName StoreGetSecretResponse
              (storeGetSecret component
                 {| Name := key; GetMetadata := reqMetadata req |}) (world s)).1.2
           = Some msg).
Proof.
  intros err storeName key. subst err storeName key.
  rewrite isSecretAllowed_result.
  destruct (GetSecretStore (compStore a) (reqStoreName req)) as [component|] eqn:Hc.
  - assert (SecretStoresLen (compStore a) ≠ 0) as Hlen.
    { apply Nat.eqb_neq. exact (lookup_Some_size_ne_0 _ _ _ Hc). }
    destruct (allowedIn a (reqStoreName req) (reqKey req)) eqn:Hal.
    + destruct (resiliency a (reqStoreName req) StoreGetSecretResponse
                  (storeGetSecret component
                     {| Name := reqKey req; GetMetadata := reqMetadata req |})
                  (world s)) as [[getResponse err] w'] eqn:Hrun.
      rewrite (GetSecret_allowed_lines a req s component getResponse err w' Hc Hal Hrun).
      destruct err as [msg|]; simpl.
      * split; [do 4 right; by exists msg |].
        split; [split; [discriminate | done] |].
        split; [split; [discriminate | by intros [? ?]] |].
        split; [split; [discriminate | by intros [? ?]] |].
        intros msg'. split.
        -- intros [= <-]. exists component. by rewrite Hrun.
        -- intros (component' & [= <-] & _ & Hmsg). rewrite Hrun in Hmsg.
           simpl in Hmsg. congruence.
      * split; [by left |].
        split; [split; [discriminate | done] |].
        split; [split; [discriminate | by intros [? ?]] |].
        split; [split; [discriminate | by intros [? ?]] |].
        intros msg'. split; [discriminate |].
        intros (component' & [= <-] & _ & Hmsg). by rewrite Hrun in Hmsg.
    + destruct (GetSecret_denied a req s component Hc Hal)
        as (config & reason & _ & _ & ->). simpl.
      split; [by right; right; right; left |].
      split; [split; [discriminate | done] |].
      split; [split; [discriminate | by intros [? ?]] |].
      split; [split; [done | done] |].
      intros msg'. split; [discriminate |].
      by intros (component' & _ & ? & _).
  - rewrite (GetSecret_unresolved a req s (or_intror Hc)). simpl. unfold resolveError.
    destruct (SecretStoresLen (compStore a) =? 0) eqn:Hlen.
    + apply Nat.eqb_eq in Hlen.
      split; [by right; left |].
      split; [done |].
      split; [split; [discriminate | by intros [? ?]] |].
      split; [split; [discriminate | by intros [[? ?] ?]] |].
      intros msg'. split; [discriminate |]. by intros (component' & ? & _).
    + apply Nat.eqb_neq in Hlen.
      split; [by right; right; left |].
      split; [split; [discriminate | done] |].
      split; [done |].
      split; [split; [discriminate | by intros [[? ?] ?]] |].
      intros msg'. split; [discriminate |]. by intros (component' & ? & _).
Qed.

(** X4. Telemetry is recorded once per call that reaches the runner and
    never otherwise: [GetSecret] writes one SecretInvoked line, for its
    store and the operation Get, when the store resolves and the key is
    allowed, and none when the store does not resolve or the key is
    denied; [GetBulkSecret] writes one, for the operation BulkGet, when
    the store resolves and none otherwise.  The success flag of the line
    is true exactly when the call returns no error. *)
Theorem telemetry_once_per_backend_call {W} (a : Universal W) (ord : RangeOrder)
    (req : GetSecretRequest) (breq : GetBulkSecretRequest) (s : State W) :
  (∃ new,
     events (GetSecret a req s).2 = events s ++ new
     ∧ (is_Some (GetSecretStore (compStore a) (reqStoreName req)) →
        (isSecretAllowed a (reqStoreName req) (reqKey req) s).1 = true →
        ∃ before after,
          new = before
                ++ SecretInvoked (reqStoreName req) Get
                     (bool_decide ((GetSecret a req s).1.2 = None)) :: after
          ∧ Forall (λ e, isSecretInvoked e = false) before
          ∧ Forall (λ e, isSecretInvoked e = false) after)
     ∧ (GetSecretStore (compStore a) (reqStoreName req) = None
        ∨ (isSecretAllowed a (reqStoreName req) (reqKey req) s).1 = false →
        Forall (λ e, isSecretInvoked e = false) new))
  ∧ (∃ new,
       events (GetBulkSecret a ord breq s).2 = events s ++ new
       ∧ (is_Some (GetSecretStore (compStore a) (bulkStoreName breq)) →
          ∃ after,
            new = SecretInvoked (bulkStoreName breq) BulkGet
                    (bool_decide ((GetBulkSecret a ord breq s).1.2 = None)) :: after
            ∧ Forall (λ e, isSecretInvoked e = false) after)
       ∧ (GetSecretStore (compStore a) (bulkStoreName breq) = None →
          Forall (λ e, isSecretInvoked e = false) new)).
Proof.
  split.
  - rewrite isSecretAllowed_result.
    destruct (GetSecretStore (compStore a) (reqStoreName req)) as [component|] eqn:Hc.
    + destruct (allowedIn a (reqStoreName req) (reqKey req)) eqn:Hal.
      * destruct (resiliency a (reqStoreName req) StoreGetSecretResponse
                    (storeGetSecret component
                       {| Name := reqKey req; GetMetadata := reqMetadata req |})
                    (world s)) as [[getResponse err] w'] eqn:Hrun.
        rewrite (GetSecret_allowed_lines a req s component getResponse err w' Hc Hal Hrun).
        destruct err as [msg|]; simpl.
        -- eexists. split; [reflexivity |]. split; [|by intros [?|?]].
           intros _ _. eexists _, _. split; [reflexivity |].
           split; [apply accessLines_not_invoked | by repeat constructor].
        -- eexists. split; [reflexivity |]. split; [|by intros [?|?]].
           intros _ _. eexists _, _. split; [reflexivity |].
           split; [apply accessLines_not_invoked | by repeat constructor].
      * destruct (GetSecret_denied a req s component Hc Hal)
          as (config & reason & _ & _ & ->). simpl.
        eexists. split; [reflexivity |]. split; [done |].
        intros _. by repeat constructor.
    + rewrite (GetSecret_unresolved a req s (or_intror Hc)). simpl.
      eexists. split; [reflexivity |]. split; [by intros [? ?] |].
      intros _. by repeat constructor.
  - destruct (GetSecretStore (compStore a) (bulkStoreName breq)) as [component|] eqn:Hc.
    + destruct (resiliency a (bulkStoreName breq) StoreBulkGetSecretResponse
                  (storeBulkGetSecret component {| BulkMetadata := bulkMetadata breq |})
                  (world s)) as [[getResponse [msg|]] w'] eqn:Hrun;
        [|destruct getResponse as [g|]].
      * rewrite (GetBulkSecret_failed a ord breq s component getResponse msg w' Hc Hrun).
        simpl. eexists. split; [reflexivity |]. split; [|done].
        intros _. eexists. split; [reflexivity |]. by repeat constructor.
      * pose proof (GetBulkSecret_success_lines a ord breq s component g w' Hc Hrun) as Hl.
        destruct (GetBulkSecret_success_run a ord breq s component g w' Hc Hrun)
          as (resp & new & Heq & _).
        rewrite Heq in Hl |- *. simpl in Hl |- *. injection Hl as Hl.
        apply app_inv_head in Hl. subst new.
        eexists. split; [reflexivity |]. split; [|done].
        intros _. eexists. split; [reflexivity |].
        apply Forall_app. split;
          [apply filterLines_not_invoked | apply aggregateLines_not_invoked].
      * rewrite (GetBulkSecret_nil_result a ord breq s component w' Hc Hrun).
        simpl. eexists. split; [reflexivity |]. split; [|done].
        intros _. eexists. split; [reflexivity |]. constructor.
    + rewrite (GetBulkSecret_unresolved a ord breq s Hc). simpl.
      eexists. split; [reflexivity |]. split; [by intros [? ?] |].
      intros _. by repeat constructor.
Qed.

Lemma telemetry_once_per_backend_call_witness :
  (∃ new,
     events (GetSecret testAPI (getReq "store3" "error-key") freshState).2
       = events freshState ++ new
     ∧ ∃ before after,
         new = before ++ SecretInvoked "store3" Get false :: after
         ∧ Forall (λ e, isSecretInvoked e = false) before
         ∧ Forall (λ e, isSecretInvoked e = false) after)
  ∧ (∃ new,
       events (GetBulkSecret testAPI listingOrder (bulkReq "nonexistent") freshState).2
         = events freshState ++ new
       ∧ Forall (λ e, isSecretInvoked e = false) new).
Proof.
  destruct (telemetry_once_per_backend_call testAPI listingOrder
              (getReq "store3" "error-key") (bulkReq "nonexistent") freshState)
    as [(new & Hnew & Hone & _) (bnew & Hbnew & _ & Hnone)].
  split.
  - exists new. split; [exact Hnew |]. apply Hone.
    + vm_compute. eexists. reflexivity.
    + vm_compute. reflexivity.
  - exists bnew. split; [exact Hbnew |]. apply Hnone. vm_compute. reflexivity.
Defined.

(** X5. Over the entries of a map, visited in a valid order, the
    filtering loop splits the keys in two: every key of the map is
    either kept or denied and none is both; the kept entries are entries
    of the map; the denied list has no repetition; so the kept entries
    and the denied keys add up to the size of the map. *)
Theorem filtering_partitions_the_keys {W} (a : Universal W) (storeName : string)
    (ord : RangeOrder) (m : gmap string SecretData) (s : State W)
    (Hord : ValidOrder ord) :
  let p := (filterSecrets a storeName (ord _ m) s).1 in
  filteredSecrets p ⊆ m
  ∧ NoDup (deniedSecrets p)
  ∧ (∀ key, key ∈ deniedSecrets p ↔
            key ∈ dom m ∧ (isSecretAllowed a storeName key s).1 = false)
  ∧ (∀ key, key ∈ dom (filteredSecrets p) ↔
            key ∈ dom m ∧ (isSecretAllowed a storeName key s).1 = true)
  ∧ size (filteredSecrets p) + length (deniedSecrets p) = size m.
Proof.
  intros p. subst p.
  rewrite (filterSecrets_allowedPart a storeName m (ord _ m) s (Hord _ m)).
  rewrite filterSecrets_denied.
  assert ((ord SecretData m).*1 ≡ₚ (map_to_list m).*1) as Hkeys by by rewrite (Hord _ m).
  assert (NoDup (ord SecretData m).*1) as Hnd.
  { rewrite Hkeys. apply NoDup_fst_map_to_list. }
  assert (∀ key, key ∈ (ord SecretData m).*1 ↔ key ∈ dom m) as Hdom.
  { intros key. rewrite Hkeys, elem_of_dom. split.
    - intros Hin. apply list_elem_of_fmap in Hin as ([k v] & -> & Hin).
      apply elem_of_map_to_list in Hin. by exists v.
    - intros [v Hv]. apply list_elem_of_fmap. exists (key, v).
      split; [done |]. by apply elem_of_map_to_list. }
  unfold allowedPart.
  split; [apply map_filter_subseteq |].
  split; [by apply NoDup_filter |].
  split; [|split].
  - intros key. rewrite list_elem_of_filter, Hdom, isSecretAllowed_result. tauto.
  - intros key. rewrite isSecretAllowed_result, !elem_of_dom. split.
    + intros [v Hv]. apply map_lookup_filter_Some in Hv as [Hv Hal]. split; [by exists v | done].
    + intros [[v Hv] Hal]. exists v. by apply map_lookup_filter_Some.
  - assert (size m = length (ord SecretData m).*1) as ->.
    { by rewrite Hkeys, length_fmap, length_map_to_list. }
    assert (size (filter (λ kv : string * SecretData,
                            allowedIn a storeName kv.1 = true) m)
            = length (filter (λ key, allowedIn a storeName key = true)
                        (ord SecretData m).*1)) as ->.
    { rewrite <- length_map_to_list, <- (length_fmap fst).
      apply Permutation_length, NoDup_Permutation.
      - apply NoDup_fst_map_to_list.
      - by apply NoDup_filter.
      - intros key. rewrite list_elem_of_filter, Hdom, elem_of_dom. split.
        + intros Hin. apply list_elem_of_fmap in Hin as ([k v] & -> & Hin).
          apply elem_of_map_to_list, map_lookup_filter_Some in Hin as [Hv Hal].
          split; [done | by exists v].
        + intros [Hal [v Hv]]. apply list_elem_of_fmap. exists (key, v).
          split; [done |]. by apply elem_of_map_to_list, map_lookup_filter_Some. }
    generalize (ord SecretData m).*1. intros keys.
    induction keys as [|key keys IH]; [done |].
    rewrite !filter_cons. destruct (allowedIn a storeName key); simpl; lia.
Qed.

Lemma filtering_partitions_the_keys_witness :
  let p := (filterSecrets testAPI "test-store"
              (listingOrder _ {[ "allowed-key" := (None : SecretData);
                                 "denied-key" := (None : SecretData) ]})
              freshState).1 in
  size (filteredSecrets p) + length (deniedSecrets p) = 2
  ∧ NoDup (deniedSecrets p).
Proof.
  destruct (filtering_partitions_the_keys testAPI "test-store" listingOrder
              {[ "allowed-key" := (None : SecretData);
                 "denied-key" := (None : SecretData) ]}
              freshState listingOrder_valid) as (_ & Hnd & _ & _ & Hsize).
  split; [exact Hsize | exact Hnd].
Defined.

Lemma filter_none {A} (P : A → Prop) `{!∀ x, Decision (P x)} (l : list A) :
  (∀ x, x ∈ l → ¬ P x) → filter P l = [].
Proof.
  induction l as [|x l IH]; intros Hl; [done |].
  rewrite filter_cons, decide_False by (apply Hl; left).
  apply IH. intros y Hy. apply Hl. by right.
Qed.






(** X7. The lines a successful bulk call writes do not depend on the
    secret values: two receivers with the same scope configurations,
    whose backends hand back results with the same keys in the same
    order of iteration, write the same lines after the same log,
    whatever the values under the keys are. *)
Theorem bulk_log_ignores_secret_values {W} (a1 a2 : Universal W) (ord : RangeOrder)
    (req : GetBulkSecretRequest) (s1 s2 : State W) (component1 component2 : SecretStore W)
    (g1 g2 : StoreBulkGetSecretResponse) (w1 w2 : W)
    (Hscopes : secretsConfigurations (compStore a1) = secretsConfigurations (compStore a2))
    (Hlog : events s1 = events s2)
    (Hstore1 : GetSecretStore (compStore a1) (bulkStoreName req) = Some component1)
    (Hstore2 : GetSecretStore (compStore a2) (bulkStoreName req) = Some component2)
    (Hrun1 : resiliency a1 (bulkStoreName req) StoreBulkGetSecretResponse
               (storeBulkGetSecret component1 {| BulkMetadata := bulkMetadata req |})
               (world s1) = (Some g1, None, w1))
    (Hrun2 : resiliency a2 (bulkStoreName req) StoreBulkGetSecretResponse
               (storeBulkGetSecret component2 {| BulkMetadata := bulkMetadata req |})
               (world s2) = (Some g2, None, w2))
    (Hkeys : (rangeOf ord (StoreBulkData g1)).*1 = (rangeOf ord (StoreBulkData g2)).*1) :
  events (GetBulkSecret a1 ord req s1).2 = events (GetBulkSecret a2 ord req s2).2.
Proof.
  rewrite (GetBulkSecret_success_lines a1 ord req s1 component1 g1 w1 Hstore1 Hrun1).
  rewrite (GetBulkSecret_success_lines a2 ord req s2 component2 g2 w2 Hstore2 Hrun2).
  simpl. unfold GetSecretsConfiguration. by rewrite Hscopes, Hlog, Hkeys.
Qed.

Lemma bulk_log_ignores_secret_values_witness :
  events (GetBulkSecret testAPI listingOrder (bulkReq "test-store") freshState).2 =
  events (GetBulkSecret
            {| compStore :=
                 {| secretStores :=
                      {[ "test-store" :=
                           CustomSecretStore
                             (Some {[ "allowed-key" := None; "denied-key" := None ]}) ]};
                    secretsConfigurations := secretsConfigurations testCompStore |};
               resiliency := λ _, noPolicy |}
            listingOrder (bulkReq "test-store") freshState).2.
Proof.
  apply (bulk_log_ignores_secret_values testAPI _ listingOrder (bulkReq "test-store")
           freshState freshState
           (CustomSecretStore testBulkSecrets)
           (CustomSecretStore (Some {[ "allowed-key" := None; "denied-key" := None ]}))
           {| StoreBulkData := testBulkSecrets |}
           {| StoreBulkData := Some {[ "allowed-key" := None; "denied-key" := None ]} |}
           1 1);
    vm_compute; reflexivity.
Defined.

Lemma GetSecret_permission_denied_iff {W} (a : Universal W) (req : GetSecretRequest)
    (s : State W) (component : SecretStore W) :
  GetSecretStore (compStore a) (reqStoreName req) = Some component →
  (GetSecret a req s).1.2 = Some (ErrSecretPermissionDenied (reqKey req) (reqStoreName req))
  ↔ allowedIn a (reqStoreName req) (reqKey req) = false.
Proof.
  intros Hc. destruct (allowedIn a (reqStoreName req) (reqKey req)) eqn:Hal.
  - destruct (GetSecret_allowed a req s component Hc Hal) as (new & ->).
    destruct (resiliency a (reqStoreName req) StoreGetSecretResponse _ _)
      as [[getResponse err] w'].
    by destruct err.
  - by destruct (GetSecret_denied a req s component Hc Hal)
      as (config & reason & _ & _ & ->).
Qed.

Lemma foldM_ext {W A B} (f g : A → B → M (W := W) A) (l : list B) :
  (∀ acc x s, f acc x s = g acc x s) → ∀ acc s, foldM f l acc s = foldM g l acc s.
Proof.
  intros Hfg. induction l as [|x l IH]; intros acc s; [done |].
  by rewrite !foldM_cons, Hfg, IH.
Qed.

Lemma filterSecrets_scope {W} (a a' : Universal W) (storeName : string) kvs s :
  GetSecretsConfiguration (compStore a') storeName
    = GetSecretsConfiguration (compStore a) storeName →
  filterSecrets a' storeName kvs s = filterSecrets a storeName kvs s.
Proof.
  intros Hscope. unfold filterSecrets. apply foldM_ext.
  intros p [key v] s0. unfold filterStep, isSecretAllowed. by rewrite Hscope.
Qed.

(** X8. The bulk path and the single path apply the same access check:
    after a successful bulk call, a key of the backend's result is in
    the response exactly when [GetSecret] for that key of the same store
    does not fail with ErrSecretPermissionDenied. *)
Theorem bulk_and_single_agree {W} (a : Universal W) (ord : RangeOrder)
    (req : GetBulkSecretRequest) (s : State W) (component : SecretStore W)
    (g : StoreBulkGetSecretResponse) (m : gmap string SecretData) (w' : W)
    (Hord : ValidOrder ord)
    (Hstore : GetSecretStore (compStore a) (bulkStoreName req) = Some component)
    (Hrun : resiliency a (bulkStoreName req) StoreBulkGetSecretResponse
              (storeBulkGetSecret component {| BulkMetadata := bulkMetadata req |})
              (world s) = (Some g, None, w'))
    (Hdata : StoreBulkData g = Some m) :
  ∃ data : gmap string SecretResponse,
    (GetBulkSecret a ord req s).1.1 = Some {| BulkData := Some data |}
    ∧ ∀ (key : string) (metadata : GoMap string) (s' : State W),
        is_Some (m !! key) →
        (is_Some (data !! key) ↔
         (GetSecret a {| reqStoreName := bulkStoreName req; reqKey := key;
                         reqMetadata := metadata |} s').1.2
         ≠ Some (ErrSecretPermissionDenied key (bulkStoreName req))).
Proof.
  destruct (GetBulkSecret_success a ord req s component g w' Hord Hstore Hrun) as [-> _].
  rewrite Hdata. eexists. split; [reflexivity |].
  intros key metadata s' [v Hv].
  rewrite (GetSecret_permission_denied_iff a
             {| reqStoreName := bulkStoreName req; reqKey := key;
                reqMetadata := metadata |} s' component Hstore). simpl.
  rewrite lookup_fmap. unfold allowedPart. rewrite map_lookup_filter, Hv. simpl.
  destruct (allowedIn a (bulkStoreName req) key) eqn:Hal.
  - rewrite option_guard_True by done. simpl. split; [done | by eexists].
  - rewrite option_guard_False by (simpl; congruence). simpl.
    split; [by intros [? ?] | done].
Qed.

Lemma bulk_and_single_agree_witness :
  ∃ data : gmap string SecretResponse,
    (GetBulkSecret testAPI listingOrder (bulkReq "test-store") freshState).1.1
      = Some {| BulkData := Some data |}
    ∧ ¬ is_Some (data !! "denied-key")
    ∧ is_Some (data !! "allowed-key").
Proof.
  destruct (bulk_and_single_agree testAPI listingOrder (bulkReq "test-store") freshState
              (CustomSecretStore testBulkSecrets)
              {| StoreBulkData := testBulkSecrets |}
              {[ "allowed-key" := Some ({[ "allowed-key" := "allowed value" ]}
                                          : gmap string string);
                 "denied-key" := Some ({[ "denied-key" := "denied value" ]}
                                         : gmap string string) ]}
              1 listingOrder_valid)
    as (data & Hresp & Hkey); [vm_compute; reflexivity .. |].
  exists data. split; [exact Hresp |]. split.
  - intros Hin. apply (Hkey "denied-key" None freshState) in Hin.
    + apply Hin. vm_compute. reflexivity.
    + vm_compute. eexists. reflexivity.
  - apply (Hkey "allowed-key" None freshState).
    + vm_compute. eexists. reflexivity.
    + vm_compute. discriminate.
Defined.

(** X9. When the store resolves and the runner ends with an error, or
    hands back no result, [GetBulkSecret] returns the nil response,
    also when a result came with the error, and no keys are filtered:
    it writes the telemetry line and, for an error, the debug line of
    ErrBulkSecretGet(store, message) that it returns, and no access
    line. *)
Theorem bulk_without_result {W} (a : Universal W) (ord : RangeOrder)
    (req : GetBulkSecretRequest) (s : State W) (component : SecretStore W)
    (getResponse : option StoreBulkGetSecretResponse) (err : option string) (w' : W)
    (Hstore : GetSecretStore (compStore a) (bulkStoreName req) = Some component)
    (Hrun : resiliency a (bulkStoreName req) StoreBulkGetSecretResponse
              (storeBulkGetSecret component {| BulkMetadata := bulkMetadata req |})
              (world s) = (getResponse, err, w'))
    (Hnone : err ≠ None ∨ getResponse = None) :
  GetBulkSecret a ord req s =
    (None, ErrBulkSecretGet (bulkStoreName req) <$> err,
     {| world := w';
        events := events s
          ++ [SecretInvoked (bulkStoreName req) BulkGet (bool_decide (err = None))]
          ++ match err with
             | Some msg => [DebugError (ErrBulkSecretGet (bulkStoreName req) msg)]
             | None => []
             end |}).
Proof.
  destruct err as [msg|].
  - by rewrite (GetBulkSecret_failed a ord req s component getResponse msg w' Hstore Hrun).
  - destruct Hnone as [?| ->]; [done |].
    by rewrite (GetBulkSecret_nil_result a ord req s component w' Hstore Hrun).
Qed.

Lemma bulk_without_result_witness :
  GetBulkSecret timedOutAPI listingOrder (bulkReq "test-store") freshState =
    (None, Some (ErrBulkSecretGet "test-store" "context deadline exceeded"),
     {| world := 0;
        events := [SecretInvoked "test-store" BulkGet false;
                   DebugError (ErrBulkSecretGet "test-store"
                                 "context deadline exceeded")] |}).
Proof.
  apply (bulk_without_result timedOutAPI listingOrder (bulkReq "test-store") freshState
           (CustomSecretStore testBulkSecrets) None (Some "context deadline exceeded") 0).
  - vm_compute. reflexivity.
  - reflexivity.
  - left. discriminate.
Defined.

(** X10. The backends are reached through the runner only, and at most
    once per call: after [GetSecret] their state is the one the runner
    left when the store resolves and the key is allowed, and the one
    before the call otherwise; after [GetBulkSecret] it is the one the
    runner left when the store resolves, and the one before the call
    otherwise.  Filtering and logging never touch it. *)
Theorem backends_reached_through_runner_only {W} (a : Universal W) (ord : RangeOrder)
    (req : GetSecretRequest) (breq : GetBulkSecretRequest) (s : State W) :
  world (GetSecret a req s).2 =
    match GetSecretStore (compStore a) (reqStoreName req) with
    | Some component =>
        if (isSecretAllowed a (reqStoreName req) (reqKey req) s).1
        then (resiliency a (reqStoreName req) StoreGetSecretResponse
                (storeGetSecret component
                   {| Name := reqKey req; GetMetadata := reqMetadata req |}) (world s)).2
        else world s
    | None => world s
    end
  ∧ world (GetBulkSecret a ord breq s).2 =
      match GetSecretStore (compStore a) (bulkStoreName breq) with
      | Some component =>
          (resiliency a (bulkStoreName breq) StoreBulkGetSecretResponse
             (storeBulkGetSecret component {| BulkMetadata := bulkMetadata breq |})
             (world s)).2
      | None => world s
      end.
Proof.
  split.
  - rewrite isSecretAllowed_result.
    destruct (GetSecretStore (compStore a) (reqStoreName req)) as [component|] eqn:Hc.
    + destruct (allowedIn a (reqStoreName req) (reqKey req)) eqn:Hal.
      * destruct (resiliency a (reqStoreName req) StoreGetSecretResponse
                    (storeGetSecret component
                       {| Name := reqKey req; GetMetadata := reqMetadata req |})
                    (world s)) as [[getResponse err] w'] eqn:Hrun.
        by rewrite (GetSecret_allowed_lines a req s component getResponse err w'
                      Hc Hal Hrun).
      * by destruct (GetSecret_denied a req s component Hc Hal)
          as (config & reason & _ & _ & ->).
    + by rewrite (GetSecret_unresolved a req s (or_intror Hc)).
  - destruct (GetSecretStore (compStore a) (bulkStoreName breq)) as [component|] eqn:Hc.
    + destruct (resiliency a (bulkStoreName breq) StoreBulkGetSecretResponse
                  (storeBulkGetSecret component {| BulkMetadata := bulkMetadata breq |})
                  (world s)) as [[getResponse [msg|]] w'] eqn:Hrun;
        [|destruct getResponse as [g|]].
      * by rewrite (GetBulkSecret_failed a ord breq s component getResponse msg w' Hc Hrun).
      * by rewrite (GetBulkSecret_success_lines a ord breq s component g w' Hc Hrun).
      * by rewrite (GetBulkSecret_nil_result a ord breq s component w' Hc Hrun).
    + by rewrite (GetBulkSecret_unresolved a ord breq s Hc).
Qed.

(** X11. A call for a store depends on the scope of that store alone:
    two receivers with the same secret stores and runners, whose scope
    configurations agree on the store of the request, give the same
    response, error, backend state and log, however their scopes for
    other stores differ. *)
Theorem scopes_of_other_stores_do_not_matter {W} (a a' : Universal W) (storeName : string)
    (Hstores : secretStores (compStore a') = secretStores (compStore a))
    (Hrunners : resiliency a' = resiliency a)
    (Hscope : GetSecretsConfiguration (compStore a') storeName
              = GetSecretsConfiguration (compStore a) storeName) :
  (∀ (key : string) (metadata : GoMap string) (s : State W),
     GetSecret a' {| reqStoreName := storeName; reqKey := key; reqMetadata := metadata |} s
     = GetSecret a {| reqStoreName := storeName; reqKey := key; reqMetadata := metadata |} s)
  ∧ (∀ (ord : RangeOrder) (metadata : GoMap string) (s : State W),
       GetBulkSecret a' ord {| bulkStoreName := storeName; bulkMetadata := metadata |} s
       = GetBulkSecret a ord {| bulkStoreName := storeName; bulkMetadata := metadata |} s).
Proof.
  split.
  - intros key metadata s.
    unfold GetSecret, secretsValidateRequest, isSecretAllowed, SecretStoresLen,
      GetSecretStore. simpl. by rewrite Hstores, Hrunners, Hscope.
  - intros ord metadata s.
    unfold GetBulkSecret, secretsValidateRequest, SecretStoresLen, GetSecretStore.
    simpl. rewrite Hstores, Hrunners. unfold_monad.
    destruct (size (secretStores (compStore a)) =? 0); simpl; [done |].
    destruct (secretStores (compStore a) !! storeName) as [component|]; simpl; [|done].
    destruct (resiliency a storeName StoreBulkGetSecretResponse _ _)
      as [[getResponse err] w']; simpl.
    destruct err as [msg|]; [done |]. destruct getResponse as [g|]; [|done].
    rewrite (filterSecrets_scope a a' storeName _ _ Hscope).
    by rewrite Hscope.
Qed.

Lemma scopes_of_other_stores_do_not_matter_witness :
  GetSecret rescopedAPI (getReq "store1" "not-allowed") freshState
  = GetSecret testAPI (getReq "store1" "not-allowed") freshState
  ∧ GetBulkSecret rescopedAPI listingOrder (bulkReq "store1") freshState
    = GetBulkSecret testAPI listingOrder (bulkReq "store1") freshState.
Proof.
  destruct (scopes_of_other_stores_do_not_matter testAPI rescopedAPI "store1")
    as [Hget Hbulk].
  - reflexivity.
  - reflexivity.
  - vm_compute. reflexivity.
  - split; [apply (Hget "not-allowed" None) | apply (Hbulk listingOrder None)].
Defined.

(** X12. Filtering is idempotent: running the loop again over the
    entries it kept, in any valid order, keeps all of them and denies
    none. *)
Theorem filtering_is_idempotent {W} (a : Universal W) (storeName : string)
    (ord ord' : RangeOrder) (m : gmap string SecretData) (s s' : State W)
    (Hord : ValidOrder ord) (Hord' : ValidOrder ord') :
  let p := (filterSecrets a storeName (ord _ m) s).1 in
  let p' := (filterSecrets a storeName (ord' _ (filteredSecrets p)) s').1 in
  filteredSecrets p' = filteredSecrets p ∧ deniedSecrets p' = [].
Proof.
  intros p p'. subst p p'.
  rewrite (filterSecrets_allowedPart a storeName m (ord _ m) s (Hord _ m)).
  rewrite (filterSecrets_allowedPart a storeName _ (ord' _ (allowedPart a storeName m)) s'
             (Hord' _ _)).
  rewrite filterSecrets_denied. split.
  - unfold allowedPart. apply map_filter_id. intros key v Hv.
    by apply map_lookup_filter_Some in Hv as [_ Hal].
  - apply filter_none. intros key Hin.
    rewrite (Hord' _ (allowedPart a storeName m)) in Hin.
    apply list_elem_of_fmap in Hin as ([k v] & -> & Hin).
    apply elem_of_map_to_list in Hin. unfold allowedPart in Hin.
    apply map_lookup_filter_Some in Hin as [_ Hal]. simpl in *. congruence.
Qed.

Lemma filtering_is_idempotent_witness :
  let p := (filterSecrets testAPI "test-store"
              (listingOrder _ {[ "allowed-key" := (None : SecretData);
                                 "denied-key" := (None : SecretData) ]})
              freshState).1 in
  let p' := (filterSecrets testAPI "test-store"
               (reverseOrder _ (filteredSecrets p)) freshState).1 in
  filteredSecrets p' = filteredSecrets p ∧ deniedSecrets p' = [].
Proof.
  exact (filtering_is_idempotent testAPI "test-store" listingOrder reverseOrder
           {[ "allowed-key" := (None : SecretData); "denied-key" := (None : SecretData) ]}
           freshState freshState listingOrder_valid reverseOrder_valid).
Defined.
